(** * 3D acquisition: constrained back-projection, robust fitting, mask splitting

    A shallow embedding of [functions.py].  Real numbers (numpy float64) are
    modelled by exact rationals [Q]; every statement about numbers is
    therefore a statement about the exact arithmetic the code approximates,
    and equality of numbers is [Qeq] ([==]).  The one place where exact
    arithmetic would change what the code does, not only its digits, is the
    linear solve of an exactly singular system: there the double-precision
    elimination is carried out on 64-bit floats. *)

From Stdlib Require Import QArith Qabs Qfield List Bool Arith ZArith Lia.
From Stdlib Require PrimFloat FloatOps SpecFloat.
Import ListNotations.

Local Open Scope Q_scope.

(** ** Python exceptions and results *)

(** The exceptions the modelled code can raise.  [LinAlgError] is
    [numpy.linalg.LinAlgError] (the spec's SingularSystemError), [ValueError]
    is what the consensus regressor raises when it cannot fit (the spec's
    FitFailureError), [TypeError] and [IndexError] are the interpreter's. *)
Inductive exn : Type :=
| TypeError
| IndexError
| ValueError
| LinAlgError.

Inductive result (A : Type) : Type :=
| Ok (a : A)
| Raise (e : exn).

Arguments Ok {A} a.
Arguments Raise {A} e.

Definition rbind {A B} (r : result A) (k : A -> result B) : result B :=
  match r with
  | Ok a => k a
  | Raise e => Raise e
  end.

(** ** Small vectors and matrices *)

Definition vec3 : Type := Q * Q * Q.
Definition vec4 : Type := Q * Q * Q * Q.
(** Matrices are stored by rows, as numpy does. *)
Definition mat33 : Type := vec3 * vec3 * vec3.
Definition mat34 : Type := vec4 * vec4 * vec4.

Definition vec3_eq (u v : vec3) : Prop :=
  let '(u0, u1, u2) := u in
  let '(v0, v1, v2) := v in
  u0 == v0 /\ u1 == v1 /\ u2 == v2.

Definition dot3 (u v : vec3) : Q :=
  let '(u0, u1, u2) := u in
  let '(v0, v1, v2) := v in
  u0 * v0 + u1 * v1 + u2 * v2.

(** [v * s] for a row [v] of the projection matrix. *)
Definition scale4 (v : vec4) (s : Q) : vec4 :=
  let '(v0, v1, v2, v3) := v in (v0 * s, v1 * s, v2 * s, v3 * s).

Definition sub4 (u v : vec4) : vec4 :=
  let '(u0, u1, u2, u3) := u in
  let '(v0, v1, v2, v3) := v in
  (u0 - v0, u1 - v1, u2 - v2, u3 - v3).

(** [v[0:-1]] and [v[-1]] on a row of four. *)
Definition init4 (v : vec4) : vec3 :=
  let '(v0, v1, v2, _) := v in (v0, v1, v2).

Definition last4 (v : vec4) : Q :=
  let '(_, _, _, v3) := v in v3.

Definition row0 (m : mat34) : vec4 := let '(r0, _, _) := m in r0.
Definition row1 (m : mat34) : vec4 := let '(_, r1, _) := m in r1.
Definition row2 (m : mat34) : vec4 := let '(_, _, r2) := m in r2.

(** ** numpy.linalg.solve *)

Definition det3 (r0 r1 r2 : vec3) : Q :=
  let '(a, b, c) := r0 in
  let '(d, e, f) := r1 in
  let '(g, h, k) := r2 in
  a * (e * k - f * h) - b * (d * k - f * g) + c * (d * h - e * g).

(** *** Double-precision elimination

    [numpy.linalg.solve] calls LAPACK's [dgesv]: an LU factorisation with
    partial pivoting ([dgetrf]) followed by the two triangular solves
    ([dgetrs]), all in 64-bit floating point.  A pivot that is exactly zero
    makes numpy raise [LinAlgError]; any other pivot, however small, does
    not. *)

Definition f64 : Type := PrimFloat.float.

(** A rational rounded to the nearest double; the values the code meets are
    doubles already. *)
Definition f64_of_Z (z : Z) : f64 :=
  FloatOps.SF2Prim
    (SpecFloat.binary_normalize FloatOps.prec FloatOps.emax z 0 false).

Definition f64_of_Q (q : Q) : f64 :=
  let r := Qred q in
  PrimFloat.div (f64_of_Z (Qnum r)) (f64_of_Z (Zpos (Qden r))).

(** The rational value of a finite double; an infinity or a NaN has none
    and is rendered as 0. *)
Definition Q_of_f64 (x : f64) : Q :=
  match FloatOps.Prim2SF x with
  | SpecFloat.S754_finite s m e =>
    (if s then inject_Z (Zneg m) else inject_Z (Zpos m)) * Qpower 2 e
  | _ => 0
  end.

(** LAPACK's safe minimum, [2^-1022]. *)
Definition sfmin : f64 :=
  FloatOps.SF2Prim (SpecFloat.S754_finite false 4503599627370496 (-1074)).

(** A row of the system with its right-hand side. *)
Definition arow : Type := list f64 * f64.

Definition lead (r : arow) : f64 := hd PrimFloat.zero (fst r).

(** [idamax]: the index of the first entry of largest magnitude. *)
Fixpoint idamax_from (xs : list f64) (i best_i : nat) (best : f64) : nat :=
  match xs with
  | [] => best_i
  | x :: xs' =>
    if PrimFloat.ltb best (PrimFloat.abs x)
    then idamax_from xs' (S i) i (PrimFloat.abs x)
    else idamax_from xs' (S i) best_i best
  end.

Definition idamax (xs : list f64) : nat :=
  match xs with
  | [] => O
  | x :: xs' => idamax_from xs' 1 0 (PrimFloat.abs x)
  end.

Fixpoint replace_at {A} (l : list A) (n : nat) (v : A) : list A :=
  match l, n with
  | [], _ => []
  | _ :: l', O => v :: l'
  | a :: l', S n' => a :: replace_at l' n' v
  end.

(** [x - l * u], entry by entry. *)
Fixpoint axpy (l : f64) (xs us : list f64) : list f64 :=
  match xs, us with
  | x :: xs', u :: us' => PrimFloat.sub x (PrimFloat.mul l u) :: axpy l xs' us'
  | _, _ => []
  end.

(** [dgetrf] on [n] rows, with the forward substitution of [dgetrs] done
    on the right-hand sides along the way: pick the pivot row, swap it to
    the top, scale the column below the pivot by the reciprocal of the
    pivot (by a division when the pivot is below the safe minimum),
    subtract, and go on with the rows below.  [None] when a pivot is
    exactly zero. *)
Fixpoint dgetrf (n : nat) (rows : list arow) : option (list arow) :=
  match n, rows with
  | S n', r0 :: rest =>
    let p := idamax (map lead rows) in
    let pivot_row := nth p rows r0 in
    let others := match p with O => rest | S p' => replace_at rest p' r0 end in
    let pivot := lead pivot_row in
    if PrimFloat.eqb pivot PrimFloat.zero then None
    else
      let scale x :=
          if PrimFloat.leb sfmin (PrimFloat.abs pivot)
          then PrimFloat.mul x (PrimFloat.div PrimFloat.one pivot)
          else PrimFloat.div x pivot in
      let reduce (r : arow) : arow :=
          let l := scale (lead r) in
          (axpy l (tl (fst r)) (tl (fst pivot_row)),
           PrimFloat.sub (snd r) (PrimFloat.mul (snd pivot_row) l)) in
      match dgetrf n' (map reduce others) with
      | Some upper => Some (pivot_row :: upper)
      | None => None
      end
  | _, _ => Some []
  end.

(** The back substitution of [dgetrs] on the upper triangular rows: the
    products are subtracted from the last column backwards, then the
    diagonal entry divides. *)
Fixpoint dgetrs (upper : list arow) : list f64 :=
  match upper with
  | [] => []
  | (u, y) :: rest =>
    let xs := dgetrs rest in
    let y' := fold_left
                (fun acc ux => PrimFloat.sub acc (PrimFloat.mul (snd ux) (fst ux)))
                (rev (combine (tl u) xs)) y in
    PrimFloat.div y' (hd PrimFloat.zero u) :: xs
  end.

Definition f64_row (r : vec3) (b : Q) : arow :=
  let '(x, y, z) := r in ([f64_of_Q x; f64_of_Q y; f64_of_Q z], f64_of_Q b).

(** [dgesv] on a 3x3 system. *)
Definition dgesv3 (r0 r1 r2 : vec3) (b0 b1 b2 : Q) : result vec3 :=
  match dgetrf 3 [f64_row r0 b0; f64_row r1 b1; f64_row r2 b2] with
  | Some upper =>
    match map Q_of_f64 (dgetrs upper) with
    | [x; y; z] => Ok (x, y, z)
    | _ => Raise LinAlgError
    end
  | None => Raise LinAlgError
  end.

(** [numpy.linalg.solve a b] for a coefficient array whose rows have three
    entries, the only width [get_xyz_coords] builds.  The array is square
    only with exactly three rows; numpy raises [LinAlgError] for an array
    that is not square.  For a regular system the exact solution is
    written with Cramer's rule.  For an exactly singular system there is
    no exact solution to idealise: the outcome is that of the
    double-precision elimination, [LinAlgError] when it meets an exactly
    zero pivot and the point it computes otherwise. *)
Definition linalg_solve (a : list vec3) (b : list Q) : result vec3 :=
  match a, b with
  | [r0; r1; r2], [b0; b1; b2] =>
    let d := det3 r0 r1 r2 in
    if Qeq_bool d 0 then dgesv3 r0 r1 r2 b0 b1 b2
    else
      let '(a0, a1, a2) := r0 in
      let '(c0, c1, c2) := r1 in
      let '(e0, e1, e2) := r2 in
      Ok (det3 (b0, a1, a2) (b1, c1, c2) (b2, e1, e2) / d,
          det3 (a0, b0, a2) (c0, b1, c2) (e0, b2, e2) / d,
          det3 (a0, a1, b0) (c0, c1, b1) (e0, e1, b2) / d)
  | _, _ => Raise LinAlgError
  end.

(** A point solving a 3x3 system given by rows and right-hand sides. *)
Definition solves3 (r0 r1 r2 : vec3) (b0 b1 b2 : Q) (p : vec3) : Prop :=
  dot3 r0 p == b0 /\ dot3 r1 p == b1 /\ dot3 r2 p == b2.

(** ** ConstrainedBackProjector: [get_xyz_coords] *)

(** A constraint [[A, B, C, D]] stands for [A x + B y + C z = D]. *)
Definition constraint : Type := vec4.

Definition constraint_holds (c : constraint) (p : vec3) : Prop :=
  dot3 (init4 c) p == last4 c.

(** The loop [for constraint in constraints: a.append(..); b.append(..)]. *)
Fixpoint append_constraints (cs : list constraint) (a : list vec3) (b : list Q)
  : list vec3 * list Q :=
  match cs with
  | [] => (a, b)
  | c :: cs' => append_constraints cs' (a ++ [init4 c]) (b ++ [last4 c])
  end.

(** [get_xyz_coords i j ppm constraints]; the default argument
    [constraints=None] is [None] here, and iterating over it is a
    [TypeError]. *)
Definition get_xyz_coords (i j : Q) (ppm : mat34)
           (constraints : option (list constraint)) : result vec3 :=
  let k1 := scale4 (row2 ppm) i in
  let k2 := scale4 (row2 ppm) j in
  let k3 := sub4 k1 (row0 ppm) in
  let k4 := sub4 k2 (row1 ppm) in
  let a := [init4 k3; init4 k4] in
  let b := [- last4 k3; - last4 k4] in
  match constraints with
  | None => Raise TypeError
  | Some cs =>
    let '(a', b') := append_constraints cs a b in
    linalg_solve a' b'
  end.

(** The coefficient rows and right-hand sides of the two ray equations. *)
Definition ray_rows (i j : Q) (ppm : mat34) : vec3 * vec3 :=
  (init4 (sub4 (scale4 (row2 ppm) i) (row0 ppm)),
   init4 (sub4 (scale4 (row2 ppm) j) (row1 ppm))).

Definition ray_rhs (i j : Q) (ppm : mat34) : Q * Q :=
  (- last4 (sub4 (scale4 (row2 ppm) i) (row0 ppm)),
   - last4 (sub4 (scale4 (row2 ppm) j) (row1 ppm))).

(** The two ray equations at pixel [(i, j)]. *)
Definition on_ray (i j : Q) (ppm : mat34) (p : vec3) : Prop :=
  dot3 (fst (ray_rows i j ppm)) p == fst (ray_rhs i j ppm)
  /\ dot3 (snd (ray_rows i j ppm)) p == snd (ray_rhs i j ppm).

(** The determinant of the stacked system for one constraint. *)
Definition system_det (i j : Q) (ppm : mat34) (c : constraint) : Q :=
  det3 (fst (ray_rows i j ppm)) (snd (ray_rows i j ppm)) (init4 c).

(** ** ProjectionBuilder: [calculatePpmMatrix] *)

Definition hstack (r : mat33) (t : vec3) : mat34 :=
  let '((r00, r01, r02), (r10, r11, r12), (r20, r21, r22)) := r in
  let '(t0, t1, t2) := t in
  ((r00, r01, r02, t0), (r10, r11, r12, t1), (r20, r21, r22, t2)).

Definition col34 (m : mat34) (n : nat) : vec3 :=
  let '((a0, a1, a2, a3), (b0, b1, b2, b3), (c0, c1, c2, c3)) := m in
  match n with
  | O => (a0, b0, c0)
  | 1%nat => (a1, b1, c1)
  | 2%nat => (a2, b2, c2)
  | _ => (a3, b3, c3)
  end.

Definition matmul_33_34 (k : mat33) (e : mat34) : mat34 :=
  let '(k0, k1, k2) := k in
  let row r := (dot3 r (col34 e 0), dot3 r (col34 e 1),
                dot3 r (col34 e 2), dot3 r (col34 e 3)) in
  (row k0, row k1, row k2).

Section Projection.

(** [cv2.Rodrigues], axis-angle vector to rotation matrix: an OpenCV
    routine, taken as given. *)
Variable Rodrigues : vec3 -> mat33.

Definition calculatePpmMatrix (intrinsic_matrix : mat33)
           (rotation_vecs translation_vecs : vec3) : mat34 :=
  let rotation_matrix := Rodrigues rotation_vecs in
  let extrinsic_matrix := hstack rotation_matrix translation_vecs in
  matmul_33_34 intrinsic_matrix extrinsic_matrix.

End Projection.

(** Forward projection of a world point by a projection matrix: the
    homogeneous image point [ppm * (X, Y, Z, 1)] and the pixel it names. *)
Definition homogeneous_image (ppm : mat34) (p : vec3) : vec3 :=
  (dot3 (init4 (row0 ppm)) p + last4 (row0 ppm),
   dot3 (init4 (row1 ppm)) p + last4 (row1 ppm),
   dot3 (init4 (row2 ppm)) p + last4 (row2 ppm)).

Definition project (ppm : mat34) (p : vec3) : Q * Q :=
  let '(u, v, w) := homogeneous_image ppm p in (u / w, v / w).

(** ** Computations over numpy's global random state *)

(** [RANSACRegressor] is built without [random_state], so it draws from
    numpy's global generator.  A computation takes the generator state,
    returns a value or raises, and leaves a new state. *)
Definition M (rng A : Type) : Type := rng -> result A * rng.

Definition ret {rng A} (a : A) : M rng A := fun s => (Ok a, s).

Definition raise {rng A} (e : exn) : M rng A := fun s => (Raise e, s).

Definition bind {rng A B} (m : M rng A) (k : A -> M rng B) : M rng B :=
  fun s =>
    match m s with
    | (Ok a, s') => k a s'
    | (Raise e, s') => (Raise e, s')
    end.

Definition lift {rng A} (r : result A) : M rng A := fun s => (r, s).

Declare Scope monad_scope.
Delimit Scope monad_scope with monad.
Notation "x <- c1 ;; c2" := (bind c1 (fun x => c2))
  (at level 61, c1 at next level, right associativity) : monad_scope.
Notation "' pat <- c1 ;; c2" := (bind c1 (fun x => match x with pat => c2 end))
  (at level 61, pat pattern, c1 at next level, right associativity)
  : monad_scope.

(** ** Linear regression (the base estimator) *)

Record LinearModel (X : Type) : Type :=
  { coef_ : X; intercept_ : Q }.

Arguments coef_ {X} _.
Arguments intercept_ {X} _.

(** The estimator interface the consensus regressor relies on: how many
    features a sample has, fitting, and prediction. *)
Class Estimator (X : Type) : Type :=
  { n_features : nat;
    est_fit : list X -> list Q -> LinearModel X;
    est_predict : LinearModel X -> X -> Q }.

Definition Qsum (l : list Q) : Q := fold_right Qplus 0 l.

Definition mean (l : list Q) : Q := Qsum l / inject_Z (Z.of_nat (length l)).

(** Sum of products of deviations from the means. *)
Definition sdev (us vs : list Q) : Q :=
  let um := mean us in
  let vm := mean vs in
  Qsum (map (fun uv => (fst uv - um) * (snd uv - vm)) (combine us vs)).

(** Modelled from the spec: [LinearRegression(fit_intercept=True)] of
    scikit-learn on one feature, the least-squares line
    [y = slope * x + intercept] (section 4.4); when all [x] coincide the
    least-norm solution has slope 0. *)
Definition fit_line (xs ys : list Q) : LinearModel Q :=
  let sxx := sdev xs xs in
  let slope := if Qeq_bool sxx 0 then 0 else sdev xs ys / sxx in
  {| coef_ := slope; intercept_ := mean ys - slope * mean xs |}.

(** Modelled from the spec: [LinearRegression(fit_intercept=True)] of
    scikit-learn on two features, the least-squares plane
    [z = A * x + B * y + D] (section 4.3); when the centred samples are
    collinear the least-norm solution is taken. *)
Definition fit_plane (xys : list (Q * Q)) (zs : list Q) : LinearModel (Q * Q) :=
  let xs := map fst xys in
  let ys := map snd xys in
  let sxx := sdev xs xs in
  let sxy := sdev xs ys in
  let syy := sdev ys ys in
  let sxz := sdev xs zs in
  let syz := sdev ys zs in
  let d := sxx * syy - sxy * sxy in
  let t := sxx + syy in
  let '(a, b) :=
    if Qeq_bool d 0 then
      if Qeq_bool t 0 then (0, 0) else (sxz / t, syz / t)
    else ((sxz * syy - syz * sxy) / d, (syz * sxx - sxz * sxy) / d) in
  {| coef_ := (a, b); intercept_ := mean zs - a * mean xs - b * mean ys |}.

#[global] Instance LinearRegression_line : Estimator Q :=
  { n_features := 1;
    est_fit := fit_line;
    est_predict := fun m x => coef_ m * x + intercept_ m }.

#[global] Instance LinearRegression_plane : Estimator (Q * Q) :=
  { n_features := 2;
    est_fit := fit_plane;
    est_predict := fun m xy =>
      fst (coef_ m) * fst xy + snd (coef_ m) * snd xy + intercept_ m }.

(** ** The consensus regressor's interface *)

(** [is_data_valid(X_subset, y_subset)] and
    [is_model_valid(model, X_subset, y_subset)] are Python callables: they
    return a truth value or raise. *)
Definition data_validator (X : Type) : Type :=
  list X -> list Q -> result bool.

Definition model_validator (X : Type) : Type :=
  LinearModel X -> list X -> list Q -> result bool.

(** The constructor arguments of [RANSACRegressor] the code sets or leaves
    at their defaults ([None]). *)
Record RANSACRegressor (X : Type) : Type :=
  { base_estimator : Estimator X;
    is_data_valid : option (data_validator X);
    is_model_valid : option (model_validator X);
    residual_threshold : option Q;
    max_trials : option nat }.

Arguments base_estimator {X} _.
Arguments is_data_valid {X} _.
Arguments is_model_valid {X} _.
Arguments residual_threshold {X} _.
Arguments max_trials {X} _.

(** What [fit] leaves on the regressor. *)
Record Fitted (X : Type) : Type :=
  { estimator_ : LinearModel X; inlier_mask_ : list bool }.

Arguments estimator_ {X} _.
Arguments inlier_mask_ {X} _.

Definition Qlt_bool (x y : Q) : bool := negb (Qle_bool y x).

(** ** Validity predicates *)

(** [validateData(a, b)]: [not (b[0] == b[1] and b[1] == b[2])], with
    Python's short-circuit [and] and [IndexError] on a short [b]. *)
Definition validateData (a : list (Q * Q)) (b : list Q) : result bool :=
  match b with
  | b0 :: b1 :: rest =>
    if Qeq_bool b0 b1 then
      match rest with
      | b2 :: _ => Ok (negb (Qeq_bool b1 b2))
      | [] => Raise IndexError
      end
    else Ok true
  | _ => Raise IndexError
  end.

(** [validateDataLine(intercept)] returns the closure
    [validateData(model, a, b)]; its three [print] calls are not modelled. *)
Definition validateDataLine (intercept : Q) : model_validator Q :=
  fun model a b => Ok (Qlt_bool 25 (Qabs (intercept - intercept_ model))).

(** ** Masks *)

(** A mask is a 2D array of 8-bit values, stored by rows. *)
Definition image : Type := list (list Z).

Definition pixel (img : image) (r c : nat) : Z :=
  nth c (nth r img []) 0%Z.

Definition zeros_like (src : image) : image :=
  map (map (fun _ => 0%Z)) src.

Fixpoint nonzero_cols (row : list Z) (c : nat) : list nat :=
  match row with
  | [] => []
  | v :: row' =>
    if Z.eqb v 0 then nonzero_cols row' (S c)
    else c :: nonzero_cols row' (S c)
  end.

Fixpoint nonzero_from (img : image) (r : nat) : list (nat * nat) :=
  match img with
  | [] => []
  | row :: img' =>
    map (fun c => (c, r)) (nonzero_cols row 0) ++ nonzero_from img' (S r)
  end.

(** [cv2.findNonZero]: the non-zero pixels in row-major order, each as
    [(x, y)] = (column, row); [None] when there is none. *)
Definition findNonZero (src : image) : option (list (nat * nat)) :=
  match nonzero_from src 0 with
  | [] => None
  | pts => Some pts
  end.

Definition to_float (pt : nat * nat) : Q * Q :=
  (inject_Z (Z.of_nat (fst pt)), inject_Z (Z.of_nat (snd pt))).

(** [np.reshape(points, (-1, 2))]: a [ValueError] on [None]. *)
Definition reshape_points (points : option (list (nat * nat)))
  : result (list (Q * Q)) :=
  match points with
  | None => Raise ValueError
  | Some pts => Ok (map to_float pts)
  end.

Fixpoint select {A} (mask : list bool) (l : list A) : list A :=
  match mask, l with
  | b :: mask', a :: l' => if b then a :: select mask' l' else select mask' l'
  | _, _ => []
  end.

(** [points[mask]] with a boolean mask: the lengths must agree.  Indexing
    [None] is a [TypeError]. *)
Definition mask_index {A} (points : option (list A)) (mask : list bool)
  : result (list A) :=
  match points with
  | None => Raise TypeError
  | Some pts =>
    if Nat.eqb (length mask) (length pts) then Ok (select mask pts)
    else Raise IndexError
  end.

Fixpoint list_set {A} (l : list A) (n : nat) (v : A) : list A :=
  match l, n with
  | [], _ => []
  | _ :: l', O => v :: l'
  | a :: l', S n' => a :: list_set l' n' v
  end.

(** [img[r, c] = v], an [IndexError] outside the array. *)
Definition set_pixel (img : image) (r c : nat) (v : Z) : result image :=
  match nth_error img r with
  | Some row =>
    if Nat.ltb c (length row) then Ok (list_set img r (list_set row c v))
    else Raise IndexError
  | None => Raise IndexError
  end.

(** [for pt in pts: img[pt[0, 1], pt[0, 0]] = 255]. *)
Fixpoint rasterize (pts : list (nat * nat)) (img : image) : result image :=
  match pts with
  | [] => Ok img
  | (x, y) :: pts' => rbind (set_pixel img y x 255%Z) (rasterize pts')
  end.

(** No pixel is non-zero in both masks. *)
Definition disjoint_masks (m1 m2 : image) : Prop :=
  forall r c, ~ (pixel m1 r c <> 0%Z /\ pixel m2 r c <> 0%Z).

(** ** The fitters and the splitter, over the regressor *)

Section Fitting.

(** numpy's generator state and [RANSACRegressor(...).fit(X, y)] of
    scikit-learn. *)
Variable rng : Type.
Variable fit : forall X, RANSACRegressor X -> list X -> list Q ->
                         M rng (Fitted X).

Local Open Scope monad_scope.

Definition calculatePlaneCoefs (points : list vec3) : M rng constraint :=
  let xy := map (fun p : vec3 => let '(x, y, _) := p in (x, y)) points in
  let z := map (fun p : vec3 => let '(_, _, z) := p in z) points in
  reg <- fit _ {| base_estimator := LinearRegression_plane;
                  is_data_valid := Some validateData;
                  is_model_valid := None;
                  residual_threshold := Some (1 # 100);
                  max_trials := Some 1000%nat |} xy z ;;
  ret (fst (coef_ (estimator_ reg)), snd (coef_ (estimator_ reg)),
       - (1), - intercept_ (estimator_ reg)).

Definition calculateLineCoefs (points : list (Q * Q))
           (is_model_valid : option (model_validator Q))
  : M rng (Q * Q * list bool) :=
  let x := map fst points in
  let y := map snd points in
  reg <- fit _ {| base_estimator := LinearRegression_line;
                  is_data_valid := None;
                  is_model_valid := is_model_valid;
                  residual_threshold := None;
                  max_trials := None |} x y ;;
  ret (coef_ (estimator_ reg), intercept_ (estimator_ reg),
       inlier_mask_ reg).

(** What the two fits of [splitTopBottomPoints] produce. *)
Record two_fits : Type :=
  { intercept_first : Q; first_set : image;
    intercept_second : Q; second_set : image }.

(** [splitTopBottomPoints], up to the second rasterisation. *)
Definition split_fits (src : image) : M rng two_fits :=
  let points := findNonZero src in
  pts <- lift (reshape_points points) ;;
  '(_, intercept_first, inliers) <- calculateLineCoefs pts None ;;
  first_pts <- lift (mask_index points inliers) ;;
  first_set <- lift (rasterize first_pts (zeros_like src)) ;;
  points_top <- lift (mask_index points (map negb inliers)) ;;
  '(_, intercept_second, inliers) <-
    calculateLineCoefs (map to_float points_top)
                       (Some (validateDataLine intercept_first)) ;;
  second_pts <- lift (mask_index (Some points_top) inliers) ;;
  second_set <- lift (rasterize second_pts (zeros_like src)) ;;
  ret {| intercept_first := intercept_first; first_set := first_set;
         intercept_second := intercept_second; second_set := second_set |}.

(** The [if intercept_first < intercept_second] at the end of
    [splitTopBottomPoints]; the pair is [(bottom, top)]. *)
Definition order_sets (f : two_fits) : image * image :=
  if Qlt_bool (intercept_first f) (intercept_second f) then
    let top := first_set f in
    let bottom := second_set f in
    (bottom, top)
  else
    let top := second_set f in
    let bottom := first_set f in
    (bottom, top).

Definition splitTopBottomPoints (src : image) : M rng (image * image) :=
  f <- split_fits src ;;
  ret (order_sets f).

End Fitting.

(** ** The consensus regressor *)

Fixpoint insert_sorted (x : Q) (l : list Q) : list Q :=
  match l with
  | [] => [x]
  | y :: l' => if Qle_bool x y then x :: l else y :: insert_sorted x l'
  end.

Definition sort (l : list Q) : list Q := fold_right insert_sorted [] l.

(** [np.median]: the middle element of the sorted values, the mean of the
    two middle ones for an even count. *)
Definition median (l : list Q) : Q :=
  let s := sort l in
  let n := length s in
  if Nat.even n then (nth (n / 2 - 1) s 0 + nth (n / 2) s 0) / 2
  else nth (n / 2) s 0.

(** Median absolute deviation of the targets, the regressor's tolerance
    when [residual_threshold] is left unset. *)
Definition mad (ys : list Q) : Q :=
  let m := median ys in
  median (map (fun y => Qabs (y - m)) ys).

Fixpoint take_rows {A} (idxs : list nat) (l : list A) : result (list A) :=
  match idxs with
  | [] => Ok []
  | i :: idxs' =>
    match nth_error l i with
    | Some a => rbind (take_rows idxs' l) (fun r => Ok (a :: r))
    | None => Raise IndexError
    end
  end.

Definition count_true (mask : list bool) : nat :=
  length (filter (fun b => b) mask).

Section Ransac.

(** The generator state and
    [sample_without_replacement(n_population, n_samples)], which draws the
    indices of a subset. *)
Variable rng : Type.
Variable sample_without_replacement : nat -> nat -> M rng (list nat).

Context {X : Type}.
Variable reg : RANSACRegressor X.

Local Open Scope monad_scope.

Definition min_samples : nat := S (@n_features X (base_estimator reg)).

Definition tolerance (ys : list Q) : Q :=
  match residual_threshold reg with
  | Some t => t
  | None => mad ys
  end.

Definition trial_budget : nat :=
  match max_trials reg with
  | Some n => n
  | None => 100%nat
  end.

(** The samples whose absolute residual under [m] is within [thr]. *)
Definition inliers_of (m : LinearModel X) (thr : Q)
           (Xs : list X) (ys : list Q) : list bool :=
  map (fun xy => Qle_bool
                   (Qabs (snd xy - @est_predict X (base_estimator reg) m (fst xy)))
                   thr)
      (combine Xs ys).

Definition data_ok (Xsub : list X) (ysub : list Q) : result bool :=
  match is_data_valid reg with
  | Some valid => valid Xsub ysub
  | None => Ok true
  end.

Definition model_ok (m : LinearModel X) (Xsub : list X) (ysub : list Q)
  : result bool :=
  match is_model_valid reg with
  | Some valid => valid m Xsub ysub
  | None => Ok true
  end.

(** Whether a candidate with inlier mask [mask] replaces the retained
    one: it needs an inlier, and more inliers than the retained one. *)
Definition improves (mask : list bool)
           (best : option (LinearModel X * list bool)) : bool :=
  match best with
  | None => Nat.ltb 0 (count_true mask)
  | Some (_, mask_best) => Nat.ltb (count_true mask_best) (count_true mask)
  end.

(** Modelled from the spec: the trial loop of the consensus algorithm of
    sections 4.3 and 4.4, which scikit-learn's [RANSACRegressor.fit]
    implements: draw a minimal subset, skip it when the sample-validity
    predicate rejects it, fit a candidate by least squares on the subset,
    skip it when the model-validity predicate rejects it, count the
    samples within the residual tolerance, and retain the candidate with
    the largest inlier count.  Among equal counts the earlier candidate
    stays; the regressor's early exit from the loop is not modelled. *)
Fixpoint ransac_trials (trials : nat) (thr : Q) (Xs : list X) (ys : list Q)
         (best : option (LinearModel X * list bool))
  : M rng (option (LinearModel X * list bool)) :=
  match trials with
  | O => ret best
  | S trials' =>
    idxs <- sample_without_replacement (length Xs) min_samples ;;
    X_subset <- lift (take_rows idxs Xs) ;;
    y_subset <- lift (take_rows idxs ys) ;;
    valid <- lift (data_ok X_subset y_subset) ;;
    if negb valid then ransac_trials trials' thr Xs ys best
    else
      let m := @est_fit X (base_estimator reg) X_subset y_subset in
      valid <- lift (model_ok m X_subset y_subset) ;;
      if negb valid then ransac_trials trials' thr Xs ys best
      else
        let mask := inliers_of m thr Xs ys in
        if improves mask best
        then ransac_trials trials' thr Xs ys (Some (m, mask))
        else ransac_trials trials' thr Xs ys best
  end.

(** The outcome of the [k]-th draw (counting from 0) of a run that starts
    in state [st]: each trial draws once, so this is the subset trial [k]
    works on. *)
Fixpoint draw_at (k n m : nat) (st : rng) : result (list nat) :=
  match k with
  | O => fst (sample_without_replacement n m st)
  | S k' => draw_at k' n m (snd (sample_without_replacement n m st))
  end.

(** A retained candidate comes from one of the first [trials] trials of
    the run started in [st]: it is the least-squares fit of the rows that
    trial drew, it was accepted by the model-validity predicate on them,
    and it carries its own inlier mask. *)
Definition retained_ok (st : rng) (trials : nat) (thr : Q)
           (Xs : list X) (ys : list Q)
           (b : LinearModel X * list bool) : Prop :=
  (exists k idxs Xsub ysub,
      (k < trials)%nat
      /\ draw_at k (length Xs) min_samples st = Ok idxs
      /\ take_rows idxs Xs = Ok Xsub
      /\ take_rows idxs ys = Ok ysub
      /\ fst b = @est_fit X (base_estimator reg) Xsub ysub
      /\ model_ok (fst b) Xsub ysub = Ok true)
  /\ snd b = inliers_of (fst b) thr Xs ys.

(** Modelled from the spec: the winning candidate of the consensus
    algorithm, or a [ValueError] (the spec's FitFailureError) when there
    are fewer samples than a minimal subset needs or no valid candidate
    was found within the trial budget. *)
Definition ransac_best (Xs : list X) (ys : list Q)
  : M rng (LinearModel X * list bool) :=
  if Nat.ltb (length Xs) min_samples then raise ValueError
  else
    best <- ransac_trials trial_budget (tolerance ys) Xs ys None ;;
    match best with
    | Some b => ret b
    | None => raise ValueError
    end.

(** Modelled from the spec: [RANSACRegressor(...).fit(X, y)], the
    consensus algorithm of sections 4.3 and 4.4: the final model is the
    least-squares refit over all inliers of the winning candidate, and
    the inlier mask is the winner's. *)
Definition ransac_fit (Xs : list X) (ys : list Q) : M rng (Fitted X) :=
  '(_, mask) <- ransac_best Xs ys ;;
  ret {| estimator_ := @est_fit X (base_estimator reg)
                                (select mask Xs) (select mask ys);
         inlier_mask_ := mask |}.

End Ransac.

Arguments ransac_fit {rng} sample_without_replacement {X} reg Xs ys _.
Arguments ransac_best {rng} sample_without_replacement {X} reg Xs ys _.
Arguments draw_at {rng} sample_without_replacement k n m st.

(** [RANSACRegressor(...).fit] in the shape the fitters take it. *)
Definition RANSAC_fit {rng} (sample : nat -> nat -> M rng (list nat))
  : forall X, RANSACRegressor X -> list X -> list Q -> M rng (Fitted X) :=
  fun X reg Xs ys => ransac_fit sample reg Xs ys.

(** A generator whose draws are listed in advance: each call hands out the
    next listed subset, and the first [k] indices once the list is used up. *)
Definition tape : Type := list (list nat).

Definition tape_sample (n k : nat) : M tape (list nat) :=
  fun t =>
    match t with
    | [] => (Ok (seq 0 k), [])
    | draw :: t' => (Ok draw, t')
    end.

(** ** Concrete inputs *)

(** A 34 x 4 mask with a horizontal segment in row 0 and a diagonal segment
    from row 30 to row 33. *)
Definition two_segments : image :=
  [[255; 255; 255; 255]%Z] ++ repeat [0; 0; 0; 0]%Z 29
  ++ [[255; 0; 0; 0]%Z; [0; 255; 0; 0]%Z; [0; 0; 255; 0]%Z; [0; 0; 0; 255]%Z].

(** Six points: three near the line [y = x + 74/3] and three far away. *)
Definition six_points : list (Q * Q) :=
  [(1, 26); (2, 26); (3, 28); (10, 126); (11, -74); (12, 226)].

(** Points of the plane [z = 2 x + 3 y + 5] and one point off it. *)
Definition plane_cloud : list vec3 :=
  [(0, 0, 5); (1, 0, 7); (0, 1, 8); (1, 1, 10); (2, 1, 12); (2, 2, 100)].

Definition camera : mat33 := ((100, 0, 50), (0, 100, 50), (0, 0, 1)).
Definition identity33 : mat33 := ((1, 0, 0), (0, 1, 0), (0, 0, 1)).
Definition demo_ppm : mat34 :=
  calculatePpmMatrix (fun _ => identity33) camera (0, 0, 0) (0, 0, 10).


(** ** Point clouds: [getWhitePoint3DCoords] *)

(** The loop [for pixel in white_pixel_coords] of [getWhitePoint3DCoords]:
    [pixel[0, 0]] is the column, [pixel[0, 1]] the row; the first pixel
    whose back-projection raises ends the loop. *)
Fixpoint backproject_pixels (pixels : list (nat * nat))
         (constraints : option (list constraint)) (ppm : mat34)
  : result (list vec3) :=
  match pixels with
  | [] => Ok []
  | pixel :: rest =>
    rbind (get_xyz_coords (fst (to_float pixel)) (snd (to_float pixel))
                          ppm constraints)
          (fun point =>
             rbind (backproject_pixels rest constraints ppm)
                   (fun res => Ok (point :: res)))
  end.

(** [getWhitePoint3DCoords(points, constraints, ppm)]; iterating over the
    [None] that [cv2.findNonZero] returns for an all-zero mask is a
    [TypeError]. *)
Definition getWhitePoint3DCoords (points : image)
           (constraints : option (list constraint)) (ppm : mat34)
  : result (list vec3) :=
  match findNonZero points with
  | None => Raise TypeError
  | Some white_pixel_coords =>
    backproject_pixels white_pixel_coords constraints ppm
  end.

(** ** Auxiliary notions for the statements *)

(** The depth of a world point: the third homogeneous image coordinate. *)
Definition depth (ppm : mat34) (p : vec3) : Q :=
  dot3 (init4 (row2 ppm)) p + last4 (row2 ppm).

(** A projection matrix multiplied by a scalar. *)
Definition scale34 (ppm : mat34) (k : Q) : mat34 :=
  (scale4 (row0 ppm) k, scale4 (row1 ppm) k, scale4 (row2 ppm) k).

Definition matvec33 (m : mat33) (v : vec3) : vec3 :=
  let '(r0, r1, r2) := m in (dot3 r0 v, dot3 r1 v, dot3 r2 v).

Definition add3 (u v : vec3) : vec3 :=
  let '(u0, u1, u2) := u in
  let '(v0, v1, v2) := v in
  (u0 + v0, u1 + v1, u2 + v2).

(** The shape of a mask: the length of each row. *)
Definition shape (img : image) : list nat := map (@length Z) img.

(** A pixel position inside a mask. *)
Definition in_image (img : image) (pt : nat * nat) : Prop :=
  exists row, nth_error img (snd pt) = Some row /\ (fst pt < length row)%nat.

(** ** Calibration helpers *)

(** Exceptions of the calibration helpers: those above, and two more of
    the interpreter. *)
Inductive py_exn : Type :=
| Builtin (e : exn)
| ZeroDivisionError
| UnboundLocalError.

Inductive py_result (A : Type) : Type :=
| Done (a : A)
| Fail (e : py_exn).

Arguments Done {A} a.
Arguments Fail {A} e.

(** [np.mgrid[0:w, 0:h].T.reshape(-1, 2)]: the pairs [(a, b)], [a] running
    fastest. *)
Definition mgrid_pairs (w h : nat) : list (nat * nat) :=
  flat_map (fun b => map (fun a => (a, b)) (seq 0 w)) (seq 0 h).

(** The object points of one chessboard view, lines 13-21 of
    [chessboardPointExtraction]: [w * h] rows of zeros, the first two
    columns set to the grid scaled by the square size
    [chessboard_dimensions[2]], then columns 0 and 1 swapped.  The
    rounding to 32-bit floats is not modelled. *)
Definition sample_object_points (w h : nat) (size : Q) : list vec3 :=
  let grid := map (fun ab : nat * nat =>
                     (inject_Z (Z.of_nat (fst ab)) * size,
                      inject_Z (Z.of_nat (snd ab)) * size))
                  (mgrid_pairs w h) in
  let filled := map (fun xy : Q * Q => (fst xy, snd xy, 0)) grid in
  map (fun p : vec3 => let '(x, y, z) := p in (y, x, z)) filled.

Section Calibration.

(** File names, colour frames, grey frames and corner arrays, and the
    OpenCV routines on them, taken as given: [cv2.imread], [cv2.cvtColor]
    to grey, [cv2.findChessboardCorners] for a pattern size,
    [cv2.cornerSubPix] with the fixed window and criteria, and the
    [shape] (rows, columns) of a grey frame. *)
Variables path frame gray corners : Type.
Variable imread : path -> frame.
Variable cvtColor : frame -> gray.
Variable findChessboardCorners : gray -> nat * nat -> bool * corners.
Variable cornerSubPix : gray -> corners -> corners.
Variable gray_shape : gray -> nat * nat.

(** The state of the loop [for fname in tqdm(images)]: the two lists built
    so far and [grayscale_image], unbound before the first iteration. *)
Record extraction : Type :=
  { object_points : list (list vec3);
    image_points : list corners;
    grayscale_image : option gray }.

Definition extraction_step (w h : nat) (sample : list vec3)
           (acc : extraction) (fname : path) : extraction :=
  let image := imread fname in
  let grayscale := cvtColor image in
  let '(ret, found) := findChessboardCorners grayscale (w, h) in
  if ret then
    {| object_points := object_points acc ++ [sample];
       image_points := image_points acc ++ [cornerSubPix grayscale found];
       grayscale_image := Some grayscale |}
  else
    {| object_points := object_points acc;
       image_points := image_points acc;
       grayscale_image := Some grayscale |}.

(** [chessboardPointExtraction(chessboard_dimensions, frame_path)], with
    [chessboard_dimensions = (w, h, size)] and [images] the file names
    [glob.glob] found; the printed messages are not modelled.  The
    returned size is [grayscale_image.shape[::-1]]. *)
Definition chessboardPointExtraction (w h : nat) (size : Q)
           (images : list path)
  : py_result (list (list vec3) * list corners * (nat * nat)) :=
  let sample := sample_object_points w h size in
  let final := fold_left (extraction_step w h sample) images
                         {| object_points := [];
                            image_points := [];
                            grayscale_image := None |} in
  match grayscale_image final with
  | None => Fail UnboundLocalError
  | Some g =>
    Done (object_points final, image_points final,
          (snd (gray_shape g), fst (gray_shape g)))
  end.

End Calibration.

Section Reprojection.

(** The arrays of one view's object points and image points, the elements
    of [rvecs] and [tvecs], and the OpenCV routines on them, taken as
    given: [cv2.projectPoints] called with the whole of [rvecs] and [tvecs]
    (the branch [len(rvecs) == 3]) or with their [i]-th elements, [len] of
    an array of image points, and [cv2.norm] with [NORM_L2]. *)
Variables objp imgp rvec tvec : Type.
Variable projectPoints_whole : objp -> list rvec -> list tvec -> imgp.
Variable projectPoints_item : objp -> rvec -> tvec -> imgp.
Variable len : imgp -> nat.
Variable norm : imgp -> imgp -> Q.

Definition index {A} (l : list A) (i : nat) : py_result A :=
  match nth_error l i with
  | Some a => Done a
  | None => Fail (Builtin IndexError)
  end.

Definition pbind {A B} (r : py_result A) (k : A -> py_result B)
  : py_result B :=
  match r with
  | Done a => k a
  | Fail e => Fail e
  end.

(** The body of the loop of [calculateReprojectionError] for index [i]:
    the error of one view. *)
Definition view_error (objpoints : list objp) (imgpoints : list imgp)
           (rvecs : list rvec) (tvecs : list tvec) (i : nat) : py_result Q :=
  pbind
    (if Nat.eqb (length rvecs) 3 then
       pbind (index objpoints i)
             (fun o => Done (projectPoints_whole o rvecs tvecs))
     else
       pbind (index objpoints i) (fun o =>
       pbind (index rvecs i) (fun r =>
       pbind (index tvecs i) (fun t =>
       Done (projectPoints_item o r t)))))
    (fun calculated =>
       pbind (index imgpoints i) (fun observed =>
       if Nat.eqb (len calculated) 0 then Fail ZeroDivisionError
       else Done (norm observed calculated
                  / inject_Z (Z.of_nat (len calculated))))).

Fixpoint sum_errors (objpoints : list objp) (imgpoints : list imgp)
         (rvecs : list rvec) (tvecs : list tvec)
         (indices : list nat) (mean_error : Q) : py_result Q :=
  match indices with
  | [] => Done mean_error
  | i :: rest =>
    pbind (view_error objpoints imgpoints rvecs tvecs i)
          (fun error =>
             sum_errors objpoints imgpoints rvecs tvecs rest
                        (mean_error + error))
  end.

(** [calculateReprojectionError]; the camera matrix and the distortion
    coefficients only reach [cv2.projectPoints] and are part of it here. *)
Definition calculateReprojectionError (objpoints : list objp)
           (imgpoints : list imgp) (rvecs : list rvec) (tvecs : list tvec)
  : py_result Q :=
  pbind (sum_errors objpoints imgpoints rvecs tvecs
                    (seq 0 (length objpoints)) 0)
        (fun mean_error =>
           if Nat.eqb (length objpoints) 0 then Fail ZeroDivisionError
           else Done (mean_error
                      / inject_Z (Z.of_nat (length objpoints)))).

End Reprojection.

(** The regressor [calculateLineCoefs] builds for a given
    [is_model_valid]. *)
Definition line_regressor (is_model_valid : option (model_validator Q))
  : RANSACRegressor Q :=
  {| base_estimator := LinearRegression_line;
     is_data_valid := None;
     is_model_valid := is_model_valid;
     residual_threshold := None;
     max_trials := None |}.

(** Every entry of a mask is 0 or 255. *)
Definition binary_mask (img : image) : Prop :=
  forall r c, pixel img r c = 0%Z \/ pixel img r c = 255%Z.

(** The regressor [calculatePlaneCoefs] builds. *)
Definition plane_regressor : RANSACRegressor (Q * Q) :=
  {| base_estimator := LinearRegression_plane;
     is_data_valid := Some validateData;
     is_model_valid := None;
     residual_threshold := Some (1 # 100);
     max_trials := Some 1000%nat |}.
(** * Theorems *)

(** ** Linear solve *)

Lemma Qeq_bool_false_neq (x y : Q) : Qeq_bool x y = false -> ~ x == y.
Proof.
  intros H E. apply Qeq_bool_iff in E. congruence.
Qed.

Lemma Qeq_bool_neq_false (x y : Q) : ~ x == y -> Qeq_bool x y = false.
Proof.
  intros H. destruct (Qeq_bool x y) eqn:E; [|reflexivity].
  apply Qeq_bool_iff in E. contradiction.
Qed.

Lemma linalg_solve_regular (r0 r1 r2 : vec3) (b0 b1 b2 : Q) :
  ~ det3 r0 r1 r2 == 0 ->
  exists p, linalg_solve [r0; r1; r2] [b0; b1; b2] = Ok p
            /\ solves3 r0 r1 r2 b0 b1 b2 p.
Proof.
  intros Hd. unfold linalg_solve.
  rewrite (Qeq_bool_neq_false _ _ Hd).
  destruct r0 as [[a0 a1] a2], r1 as [[c0 c1] c2], r2 as [[e0 e1] e2].
  eexists. split; [reflexivity|].
  unfold solves3, dot3, det3 in *.
  repeat split; field; exact Hd.
Qed.

Lemma cramer_numerators (r0 r1 r2 : vec3) (b0 b1 b2 : Q) (p : vec3) :
  solves3 r0 r1 r2 b0 b1 b2 p ->
  let '(a0, a1, a2) := r0 in
  let '(c0, c1, c2) := r1 in
  let '(e0, e1, e2) := r2 in
  let '(x, y, z) := p in
  x * det3 r0 r1 r2 == det3 (b0, a1, a2) (b1, c1, c2) (b2, e1, e2)
  /\ y * det3 r0 r1 r2 == det3 (a0, b0, a2) (c0, b1, c2) (e0, b2, e2)
  /\ z * det3 r0 r1 r2 == det3 (a0, a1, b0) (c0, c1, b1) (e0, e1, b2).
Proof.
  destruct r0 as [[a0 a1] a2], r1 as [[c0 c1] c2], r2 as [[e0 e1] e2].
  destruct p as [[x y] z].
  unfold solves3, dot3, det3.
  intros (P0 & P1 & P2).
  rewrite <- P0, <- P1, <- P2.
  repeat split; ring.
Qed.

Lemma solves3_unique (r0 r1 r2 : vec3) (b0 b1 b2 : Q) (p q : vec3) :
  ~ det3 r0 r1 r2 == 0 ->
  solves3 r0 r1 r2 b0 b1 b2 p -> solves3 r0 r1 r2 b0 b1 b2 q ->
  vec3_eq q p.
Proof.
  intros Hd Hp Hq.
  apply cramer_numerators in Hp. apply cramer_numerators in Hq.
  destruct r0 as [[a0 a1] a2], r1 as [[c0 c1] c2], r2 as [[e0 e1] e2].
  destruct p as [[x y] z], q as [[x' y'] z'].
  destruct Hp as (Px & Py & Pz), Hq as (Qx & Qy & Qz).
  unfold vec3_eq.
  rewrite <- Px in Qx. rewrite <- Py in Qy. rewrite <- Pz in Qz.
  repeat split; eapply Qmult_inj_r; eauto.
Qed.

(** ** Back-projection *)

Lemma append_constraints_length (cs : list constraint) :
  forall a b,
    length (fst (append_constraints cs a b)) = (length a + length cs)%nat
    /\ length (snd (append_constraints cs a b)) = (length b + length cs)%nat.
Proof.
  induction cs as [|c cs IH]; intros a b; simpl.
  - split; lia.
  - destruct (IH (a ++ [init4 c]) (b ++ [last4 c])) as [Ha Hb].
    rewrite Ha, Hb, !length_app. simpl. split; lia.
Qed.

Lemma linalg_solve_not_square (a : list vec3) (b : list Q) :
  length a <> 3%nat -> linalg_solve a b = Raise LinAlgError.
Proof.
  intros H. unfold linalg_solve.
  destruct a as [|r0 [|r1 [|r2 [|r3 a]]]]; try reflexivity.
  simpl in H. lia.
Qed.

Lemma get_xyz_coords_solves (i j : Q) (ppm : mat34) (c : constraint) :
  ~ system_det i j ppm c == 0 ->
  exists p, get_xyz_coords i j ppm (Some [c]) = Ok p
            /\ on_ray i j ppm p /\ constraint_holds c p
            /\ forall q, on_ray i j ppm q -> constraint_holds c q ->
                         vec3_eq q p.
Proof.
  intros Hd. unfold system_det in Hd.
  destruct (linalg_solve_regular _ _ _ (fst (ray_rhs i j ppm))
              (snd (ray_rhs i j ppm)) (last4 c) Hd) as (p & Hp & Hs).
  exists p. split; [exact Hp|].
  destruct Hs as (S0 & S1 & S2).
  split; [split; assumption|]. split; [exact S2|].
  intros q [R0 R1] Hc.
  apply (solves3_unique _ _ _ (fst (ray_rhs i j ppm)) (snd (ray_rhs i j ppm))
                         (last4 c) p q Hd).
  - repeat split; assumption.
  - repeat split; assumption.
Qed.

(** C4.  With exactly one constraint [[a, b, c, d]] and a non-singular
    stacked 3x3 system, [get_xyz_coords] returns a point that satisfies the
    two ray equations [(P2*i - P0)[0:3] . p = -(P2*i - P0)[3]],
    [(P2*j - P1)[0:3] . p = -(P2*j - P1)[3]] and the constraint
    [a X + b Y + c Z = d], and every point satisfying the three equations is
    that point. *)
Theorem get_xyz_coords_unique_point (i j : Q) (ppm : mat34) (c : constraint) :
  ~ system_det i j ppm c == 0 ->
  exists p,
    get_xyz_coords i j ppm (Some [c]) = Ok p
    /\ dot3 (init4 (sub4 (scale4 (row2 ppm) i) (row0 ppm))) p
       == - last4 (sub4 (scale4 (row2 ppm) i) (row0 ppm))
    /\ dot3 (init4 (sub4 (scale4 (row2 ppm) j) (row1 ppm))) p
       == - last4 (sub4 (scale4 (row2 ppm) j) (row1 ppm))
    /\ dot3 (init4 c) p == last4 c
    /\ forall q,
        dot3 (init4 (sub4 (scale4 (row2 ppm) i) (row0 ppm))) q
        == - last4 (sub4 (scale4 (row2 ppm) i) (row0 ppm)) ->
        dot3 (init4 (sub4 (scale4 (row2 ppm) j) (row1 ppm))) q
        == - last4 (sub4 (scale4 (row2 ppm) j) (row1 ppm)) ->
        dot3 (init4 c) q == last4 c ->
        vec3_eq q p.
Proof.
  intros Hd.
  destruct (get_xyz_coords_solves i j ppm c Hd) as (p & Hp & [R0 R1] & Hc & Hu).
  exists p. repeat split; try assumption.
  intros q Q0 Q1 Qc. apply Hu; [split|]; assumption.
Qed.

(** C6 (amended).  [get_xyz_coords] raises [LinAlgError] (the spec's
    SingularSystemError) when the constraint list is empty and when it holds
    two or more constraints: the stacked array is then not square. *)
Theorem get_xyz_coords_fails (i j : Q) (ppm : mat34) (cs : list constraint) :
  cs = [] \/ (2 <= length cs)%nat ->
  get_xyz_coords i j ppm (Some cs) = Raise LinAlgError.
Proof.
  intros [H | H].
  - subst cs. reflexivity.
  - unfold get_xyz_coords.
    match goal with
    | |- context [append_constraints cs ?a ?b] =>
      pose proof (append_constraints_length cs a b) as [La _];
        destruct (append_constraints cs a b) as [a' b']
    end.
    apply linalg_solve_not_square. simpl in La. lia.
Qed.

(** C10.  Called with the default [constraints=None], [get_xyz_coords]
    raises [TypeError] at the loop over the constraints, whatever the pixel
    and the projection matrix; the linear solve and its [LinAlgError] for
    an empty constraint list are not reached. *)
Theorem get_xyz_coords_default_constraints (i j : Q) (ppm : mat34) :
  get_xyz_coords i j ppm None = Raise TypeError
  /\ get_xyz_coords i j ppm (Some []) = Raise LinAlgError
  /\ get_xyz_coords i j ppm None <> get_xyz_coords i j ppm (Some []).
Proof.
  repeat split; try reflexivity. discriminate.
Qed.

(** ** Projection followed by back-projection *)

Lemma project_on_ray (ppm : mat34) (p : vec3) :
  ~ dot3 (init4 (row2 ppm)) p + last4 (row2 ppm) == 0 ->
  on_ray (fst (project ppm p)) (snd (project ppm p)) ppm p.
Proof.
  destruct ppm as [[[[[a0 a1] a2] a3] [[[b0 b1] b2] b3]] [[[c0 c1] c2] c3]].
  destruct p as [[x y] z].
  unfold on_ray, project, homogeneous_image, ray_rows, ray_rhs; simpl.
  intros Hw. split; field; exact Hw.
Qed.

(** C3 (amended).  For a projection matrix built by [calculatePpmMatrix],
    a world point [p] of non-zero depth lying on the plane [c], and a
    non-singular stacked system at the pixel [p] projects to (the plane
    does not hold the viewing ray of [p]), back-projecting that pixel under
    [c] returns [p] (exactly, in rational arithmetic). *)
Theorem project_backproject_roundtrip
        (Rodrigues : vec3 -> mat33) (intrinsic_matrix : mat33)
        (rotation_vecs translation_vecs : vec3) (p : vec3) (c : constraint) :
  let ppm := calculatePpmMatrix Rodrigues intrinsic_matrix
                                rotation_vecs translation_vecs in
  let i := fst (project ppm p) in
  let j := snd (project ppm p) in
  ~ dot3 (init4 (row2 ppm)) p + last4 (row2 ppm) == 0 ->
  constraint_holds c p ->
  ~ system_det i j ppm c == 0 ->
  exists q, get_xyz_coords i j ppm (Some [c]) = Ok q /\ vec3_eq q p.
Proof.
  intros ppm i j Hw Hc Hd.
  destruct (get_xyz_coords_solves i j ppm c Hd) as (q & Hq & Hr & Hcq & Hu).
  exists q. split; [exact Hq|].
  pose proof (project_on_ray ppm p Hw) as Hp.
  pose proof (Hu p Hp Hc) as E.
  destruct p as [[x y] z], q as [[x' y'] z'].
  unfold vec3_eq in *. destruct E as (E0 & E1 & E2).
  repeat split; symmetry; assumption.
Qed.

(** ** Running monadic computations *)

Lemma bind_ok {rng A B} (m : M rng A) (k : A -> M rng B) s b s' :
  bind m k s = (Ok b, s') ->
  exists a s1, m s = (Ok a, s1) /\ k a s1 = (Ok b, s').
Proof.
  unfold bind. destruct (m s) as [[a|e] s1]; intros H.
  - exists a, s1. split; [reflexivity|exact H].
  - discriminate.
Qed.

Lemma lift_ok {rng A} (r : result A) (s : rng) a s' :
  lift r s = (Ok a, s') -> r = Ok a /\ s' = s.
Proof.
  unfold lift. intros H. inversion H. split; reflexivity.
Qed.

Lemma ret_ok {rng A} (x : A) (s : rng) a s' :
  ret x s = (Ok a, s') -> a = x /\ s' = s.
Proof.
  unfold ret. intros H. inversion H. split; reflexivity.
Qed.

Lemma rbind_ok {A B} (r : result A) (k : A -> result B) b :
  rbind r k = Ok b -> exists a, r = Ok a /\ k a = Ok b.
Proof.
  destruct r as [a|e]; simpl; intros H; [|discriminate].
  exists a. split; [reflexivity|exact H].
Qed.

Lemma bind_lift_ok {rng A B} (r : result A) (k : A -> M rng B) s b s' :
  bind (lift r) k s = (Ok b, s') ->
  exists a, r = Ok a /\ k a s = (Ok b, s').
Proof.
  intros H. apply bind_ok in H. destruct H as (a & s1 & H1 & H).
  apply lift_ok in H1. destruct H1 as [-> ->]. exists a. split; auto.
Qed.

(** ** Masks and point lists *)

Lemma select_In {A} (mask : list bool) :
  forall (l : list A) x, In x (select mask l) -> In x l.
Proof.
  induction mask as [|b mask IH]; intros [|a l] x; simpl; try tauto.
  destruct b; simpl; intros H.
  - destruct H as [H|H]; [left; exact H|right; apply IH; exact H].
  - right. apply IH. exact H.
Qed.

Lemma select_complement {A} (mask : list bool) :
  forall (l : list A) x,
    NoDup l -> In x (select mask l) -> In x (select (map negb mask) l) ->
    False.
Proof.
  induction mask as [|b mask IH]; intros [|a l] x Hnd; simpl; try tauto.
  inversion Hnd as [|a' l' Hnotin Hnd']; subst.
  destruct b; simpl; intros H1 H2.
  - destruct H1 as [H1|H1].
    + subst x. apply Hnotin. eapply select_In; exact H2.
    + eapply IH; eassumption.
  - destruct H2 as [H2|H2].
    + subst x. apply Hnotin. eapply select_In; exact H1.
    + eapply IH; eassumption.
Qed.

Lemma nonzero_cols_ge (row : list Z) :
  forall c x, In x (nonzero_cols row c) -> (c <= x)%nat.
Proof.
  induction row as [|v row IH]; intros c x; simpl; [tauto|].
  destruct (Z.eqb v 0); simpl.
  - intros H. apply IH in H. lia.
  - intros [H|H]; [lia|]. apply IH in H. lia.
Qed.

Lemma nonzero_cols_NoDup (row : list Z) :
  forall c, NoDup (nonzero_cols row c).
Proof.
  induction row as [|v row IH]; intros c; simpl; [constructor|].
  destruct (Z.eqb v 0); [apply IH|].
  constructor; [|apply IH].
  intros H. apply nonzero_cols_ge in H. lia.
Qed.

Lemma row_points_NoDup (cols : list nat) (r : nat) :
  NoDup cols -> NoDup (map (fun c => (c, r)) cols).
Proof.
  induction 1 as [|c cols Hnotin Hnd IH]; simpl; constructor; [|exact IH].
  rewrite in_map_iff. intros (c' & E & Hin). inversion E. subst c'.
  contradiction.
Qed.

Lemma nonzero_from_ge (img : image) :
  forall r pt, In pt (nonzero_from img r) -> (r <= snd pt)%nat.
Proof.
  induction img as [|row img IH]; intros r pt; simpl; [tauto|].
  rewrite in_app_iff, in_map_iff. intros [(c & <- & _)|H].
  - simpl. lia.
  - apply IH in H. lia.
Qed.

Lemma nonzero_from_NoDup (img : image) :
  forall r, NoDup (nonzero_from img r).
Proof.
  induction img as [|row img IH]; intros r; simpl; [constructor|].
  apply NoDup_app.
  - apply row_points_NoDup, nonzero_cols_NoDup.
  - apply IH.
  - intros pt H1 H2. apply in_map_iff in H1. destruct H1 as (c & <- & _).
    apply nonzero_from_ge in H2. simpl in H2. lia.
Qed.

Lemma findNonZero_NoDup (src : image) (pts : list (nat * nat)) :
  findNonZero src = Some pts -> NoDup pts.
Proof.
  unfold findNonZero. pose proof (nonzero_from_NoDup src 0) as H.
  destruct (nonzero_from src 0); intros E; inversion E; subst. exact H.
Qed.

Lemma list_set_nth_ne {A} (l : list A) :
  forall n m v d, n <> m -> nth n (list_set l m v) d = nth n l d.
Proof.
  induction l as [|a l IH]; intros [|n] [|m] v d H; simpl;
    try reflexivity; try congruence.
  apply IH. congruence.
Qed.

Lemma list_set_nth_eq {A} (l : list A) :
  forall n v d, (n < length l)%nat -> nth n (list_set l n v) d = v.
Proof.
  induction l as [|a l IH]; intros [|n] v d H; simpl in *;
    try lia; try reflexivity.
  apply IH. lia.
Qed.

Lemma set_pixel_elsewhere (img img' : image) (r c : nat) (v : Z) :
  set_pixel img r c v = Ok img' ->
  forall r' c', (r', c') <> (r, c) -> pixel img' r' c' = pixel img r' c'.
Proof.
  unfold set_pixel. destruct (nth_error img r) as [row|] eqn:Hrow; [|discriminate].
  destruct (Nat.ltb c (length row)); [|discriminate].
  intros E r' c' Hne. inversion E; subst img'; clear E. unfold pixel.
  destruct (Nat.eq_dec r' r) as [->|Hr].
  - assert (Hc : c' <> c) by congruence.
    rewrite list_set_nth_eq
      by (apply nth_error_Some; rewrite Hrow; discriminate).
    rewrite list_set_nth_ne by exact Hc.
    rewrite (nth_error_nth _ _ [] Hrow). reflexivity.
  - rewrite list_set_nth_ne by exact Hr. reflexivity.
Qed.

Lemma rasterize_elsewhere (pts : list (nat * nat)) :
  forall img img',
    rasterize pts img = Ok img' ->
    forall r c, ~ In (c, r) pts -> pixel img' r c = pixel img r c.
Proof.
  induction pts as [|[x y] pts IH]; intros img img' H r c Hnotin; simpl in H.
  - inversion H. reflexivity.
  - apply rbind_ok in H. destruct H as (img1 & H1 & H2).
    rewrite (IH _ _ H2) by (intros Hin; apply Hnotin; right; exact Hin).
    apply (set_pixel_elsewhere _ _ _ _ _ H1).
    intros E. apply Hnotin. left. inversion E. reflexivity.
Qed.

Lemma zeros_like_pixel (src : image) (r c : nat) :
  pixel (zeros_like src) r c = 0%Z.
Proof.
  assert (Hrow : forall (row : list Z) n,
             nth n (map (fun _ : Z => 0%Z) row) 0%Z = 0%Z).
  { induction row as [|v row IH]; intros [|n]; simpl; auto. }
  unfold pixel, zeros_like. revert r.
  induction src as [|row src IH]; intros [|r]; simpl; auto.
  - destruct c; reflexivity.
  - destruct c; reflexivity.
Qed.

Lemma rasterize_zeros_lit (src img : image) (pts : list (nat * nat)) :
  rasterize pts (zeros_like src) = Ok img ->
  forall r c, pixel img r c <> 0%Z -> In (c, r) pts.
Proof.
  intros H r c Hlit.
  destruct (in_dec (fun a b : nat * nat =>
                      ltac:(decide equality; apply Nat.eq_dec) : {a = b} + {a <> b})
                   (c, r) pts) as [Hin|Hnotin]; [exact Hin|].
  exfalso. apply Hlit.
  rewrite (rasterize_elsewhere _ _ _ H _ _ Hnotin). apply zeros_like_pixel.
Qed.

Lemma mask_index_ok {A} (points : option (list A)) (mask : list bool) l :
  mask_index points mask = Ok l ->
  exists pts, points = Some pts /\ l = select mask pts.
Proof.
  unfold mask_index. destruct points as [pts|]; [|discriminate].
  destruct (Nat.eqb (length mask) (length pts)); [|discriminate].
  intros E. inversion E. exists pts. split; reflexivity.
Qed.

Section FittingFacts.

Variable rng : Type.
Variable fit : forall X, RANSACRegressor X -> list X -> list Q ->
                         M rng (Fitted X).

Lemma split_fits_disjoint (src : image) (st st' : rng) (f : two_fits) :
  split_fits rng fit src st = (Ok f, st') ->
  disjoint_masks (first_set f) (second_set f).
Proof.
  unfold split_fits. intros H.
  apply bind_lift_ok in H. destruct H as (fpts & _ & H).
  apply bind_ok in H. destruct H as ([[slope1 c1] inl1] & s1 & _ & H).
  apply bind_lift_ok in H. destruct H as (first_pts & Hrun1 & H).
  apply bind_lift_ok in H. destruct H as (set1 & Hrun2 & H).
  apply bind_lift_ok in H. destruct H as (points_top & Hrun3 & H).
  apply bind_ok in H. destruct H as ([[slope2 c2] inl2] & s2 & _ & H).
  apply bind_lift_ok in H. destruct H as (second_pts & Hrun5 & H).
  apply bind_lift_ok in H. destruct H as (set2 & Hrun6 & H).
  apply ret_ok in H. destruct H as [-> _]. simpl.
  apply mask_index_ok in Hrun1. destruct Hrun1 as (pts & Hpts & ->).
  apply mask_index_ok in Hrun3. destruct Hrun3 as (pts' & Hpts' & ->).
  apply mask_index_ok in Hrun5. destruct Hrun5 as (pts2 & Hpts2 & ->).
  rewrite Hpts in Hpts'. inversion Hpts'; subst pts'.
  inversion Hpts2; subst pts2.
  intros r c [L1 L2].
  apply (rasterize_zeros_lit _ _ _ Hrun2) in L1.
  apply (rasterize_zeros_lit _ _ _ Hrun6) in L2.
  apply select_In in L2.
  eapply select_complement; [|exact L1|exact L2].
  eapply findNonZero_NoDup. exact Hpts.
Qed.

End FittingFacts.

Section SplitterTheorems.

Variable rng : Type.
Variable fit : forall X, RANSACRegressor X -> list X -> list Q ->
                         M rng (Fitted X).

Lemma splitTopBottomPoints_ok (src : image) (st st' : rng)
      (bottom top : image) :
  splitTopBottomPoints rng fit src st = (Ok (bottom, top), st') ->
  exists f, split_fits rng fit src st = (Ok f, st')
            /\ order_sets f = (bottom, top).
Proof.
  unfold splitTopBottomPoints. intros H.
  apply bind_ok in H. destruct H as (f & s1 & Hf & H).
  apply ret_ok in H. destruct H as [E ->].
  exists f. split; [exact Hf|symmetry; exact E].
Qed.

(** C1 (amended).  When [splitTopBottomPoints] returns [(bottom, top)],
    the mask of the fit with the smaller intercept is [top] and the mask
    of the other fit is [bottom]; with equal intercepts the first fit's
    mask is [bottom]. *)
Theorem splitTopBottomPoints_order (src : image) (st st' : rng)
        (bottom top : image) :
  splitTopBottomPoints rng fit src st = (Ok (bottom, top), st') ->
  exists f,
    split_fits rng fit src st = (Ok f, st')
    /\ ((intercept_first f < intercept_second f
         /\ top = first_set f /\ bottom = second_set f)
        \/ (intercept_second f <= intercept_first f
            /\ top = second_set f /\ bottom = first_set f)).
Proof.
  intros H. apply splitTopBottomPoints_ok in H.
  destruct H as (f & Hf & Ho). exists f. split; [exact Hf|].
  unfold order_sets, Qlt_bool in Ho.
  destruct (Qle_bool (intercept_second f) (intercept_first f)) eqn:E;
    simpl in Ho; inversion Ho; subst.
  - right. apply Qle_bool_iff in E. auto.
  - left. split; [|auto].
    apply Qnot_le_lt. intros Hle. apply Qle_bool_iff in Hle. congruence.
Qed.

(** C7.  When both line fits of [splitTopBottomPoints] succeed, no pixel
    is non-zero in both returned masks. *)
Theorem splitTopBottomPoints_disjoint (src : image) (st st' : rng)
        (bottom top : image) :
  splitTopBottomPoints rng fit src st = (Ok (bottom, top), st') ->
  forall r c, ~ (pixel bottom r c <> 0%Z /\ pixel top r c <> 0%Z).
Proof.
  intros H. apply splitTopBottomPoints_ok in H.
  destruct H as (f & Hf & Ho).
  pose proof (split_fits_disjoint rng fit src st st' f Hf) as D.
  unfold order_sets in Ho.
  destruct (Qlt_bool (intercept_first f) (intercept_second f));
    inversion Ho; subst; intros r c [L1 L2]; apply (D r c); auto.
Qed.

(** C8.  When the plane fit succeeds with the model [z = A x + B y + D],
    [calculatePlaneCoefs] returns the constraint [[A, B, -1, -D]], and a
    point satisfies that constraint exactly when it lies on the fitted
    plane. *)
Theorem calculatePlaneCoefs_constraint (points : list vec3) (st st' : rng)
        (c : constraint) :
  calculatePlaneCoefs rng fit points st = (Ok c, st') ->
  exists reg,
    fit _ {| base_estimator := LinearRegression_plane;
             is_data_valid := Some validateData;
             is_model_valid := None;
             residual_threshold := Some (1 # 100);
             max_trials := Some 1000%nat |}
        (map (fun p : vec3 => let '(x, y, _) := p in (x, y)) points)
        (map (fun p : vec3 => let '(_, _, z) := p in z) points) st
    = (Ok reg, st')
    /\ let A := fst (coef_ (estimator_ reg)) in
       let B := snd (coef_ (estimator_ reg)) in
       let D := intercept_ (estimator_ reg) in
       c = (A, B, - (1), - D)
       /\ forall x y z,
           constraint_holds c (x, y, z) <-> z == A * x + B * y + D.
Proof.
  unfold calculatePlaneCoefs. intros H.
  apply bind_ok in H. destruct H as (reg & s1 & Hfit & H).
  apply ret_ok in H. destruct H as [-> ->].
  exists reg. split; [exact Hfit|]. split; [reflexivity|].
  intros x y z. unfold constraint_holds, dot3, init4, last4.
  split; intros E.
  - setoid_replace z with
        (fst (coef_ (estimator_ reg)) * x + snd (coef_ (estimator_ reg)) * y
         - (fst (coef_ (estimator_ reg)) * x + snd (coef_ (estimator_ reg)) * y
            + - (1) * z)) by ring.
    rewrite E. ring.
  - rewrite E. ring.
Qed.

End SplitterTheorems.


(** ** The consensus regressor *)

Lemma Qlt_bool_lt (x y : Q) : Qlt_bool x y = true -> x < y.
Proof.
  unfold Qlt_bool. intros H. apply negb_true_iff in H.
  apply Qnot_le_lt. intros Hle. apply Qle_bool_iff in Hle. congruence.
Qed.

Section RansacFacts.

Variable rng : Type.
Variable sample : nat -> nat -> M rng (list nat).
Context {X : Type}.
Variable reg : RANSACRegressor X.

Lemma retained_later (thr : Q) (Xs : list X) (ys : list Q)
      (st : rng) (trials : nat) (b : LinearModel X * list bool) :
  retained_ok rng sample reg
              (snd (sample (length Xs) (min_samples reg) st)) trials
              thr Xs ys b ->
  retained_ok rng sample reg st (S trials) thr Xs ys b.
Proof.
  intros [(k & idxs & Xsub & ysub & Hk & Hd & HX & Hy & Hf & Hv) Hm].
  split; [|exact Hm].
  exists (S k), idxs, Xsub, ysub. repeat split; try assumption. lia.
Qed.

Lemma ransac_trials_retained (thr : Q) (Xs : list X) (ys : list Q) :
  forall trials best st best' st',
    ransac_trials rng sample reg trials thr Xs ys best st = (Ok best', st') ->
    forall b, best' = Some b ->
              best = Some b
              \/ retained_ok rng sample reg st trials thr Xs ys b.
Proof.
  induction trials as [|trials IH]; intros best st best' st' H b Hb;
    simpl in H.
  - apply ret_ok in H. destruct H as [-> _]. left. exact Hb.
  - apply bind_ok in H. destruct H as (idxs & s1 & Hs & H).
    assert (Hs1 : s1 = snd (sample (length Xs) (min_samples reg) st))
      by (rewrite Hs; reflexivity).
    assert (Hlater : forall b0,
               retained_ok rng sample reg s1 trials thr Xs ys b0 ->
               retained_ok rng sample reg st (S trials) thr Xs ys b0)
      by (intros b0 Hr; apply retained_later; rewrite <- Hs1; exact Hr).
    apply bind_lift_ok in H. destruct H as (Xsub & HX & H).
    apply bind_lift_ok in H. destruct H as (ysub & Hy & H).
    apply bind_lift_ok in H. destruct H as (dv & _ & H).
    destruct dv; simpl in H;
      [|destruct (IH _ _ _ _ H b Hb) as [E|R]; [left; exact E|right; auto]].
    apply bind_lift_ok in H. destruct H as (mv & Hmv & H).
    destruct mv; simpl in H;
      [|destruct (IH _ _ _ _ H b Hb) as [E|R]; [left; exact E|right; auto]].
    destruct (improves _ _);
      [|destruct (IH _ _ _ _ H b Hb) as [E|R]; [left; exact E|right; auto]].
    destruct (IH _ _ _ _ H b Hb) as [E|R]; [|right; auto].
    right. inversion E; subst b; clear E.
    split; [|reflexivity].
    exists O, idxs, Xsub, ysub. simpl. rewrite Hs. simpl.
    repeat split; try assumption; try reflexivity. lia.
Qed.

Lemma ransac_best_retained (Xs : list X) (ys : list Q) (st st' : rng)
      (b : LinearModel X * list bool) :
  ransac_best sample reg Xs ys st = (Ok b, st') ->
  retained_ok rng sample reg st (trial_budget reg) (tolerance reg ys) Xs ys b.
Proof.
  unfold ransac_best.
  destruct (Nat.ltb (length Xs) (min_samples reg)); [discriminate|].
  intros H. apply bind_ok in H. destruct H as (best & s1 & Ht & H).
  destruct best as [b'|]; [|discriminate].
  apply ret_ok in H. destruct H as [-> _].
  destruct (ransac_trials_retained _ _ _ _ _ _ _ _ Ht b' eq_refl) as [E|R];
    [discriminate E|exact R].
Qed.

Lemma ransac_fit_refit (Xs : list X) (ys : list Q) (st st' : rng)
    (r : Fitted X) :
ransac_fit sample reg Xs ys st = (Ok r, st') ->
exists b,
  ransac_best sample reg Xs ys st = (Ok b, st')
  /\ inlier_mask_ r = snd b
  /\ estimator_ r = @est_fit X (base_estimator reg)
                             (select (snd b) Xs) (select (snd b) ys).
Proof.
unfold ransac_fit. intros H.
apply bind_ok in H. destruct H as ([m mask] & s1 & Hb & H).
apply ret_ok in H. destruct H as [-> ->].
exists (m, mask). repeat split. exact Hb.
Qed.

End RansacFacts.

(** C5 (amended).  When [calculateLineCoefs] runs the consensus regressor
    with the predicate [validateDataLine c1] and returns, there is a trial
    of that run, among its 100, whose drawn subset of the input points has
    as least-squares line the winning candidate: the winner's intercept
    differs from [c1] by more than 25, the returned mask marks the points
    within the tolerance of the winner, and the returned slope and
    intercept are those of the least-squares refit over these inliers. *)
Theorem calculateLineCoefs_winner_distinct
        (rng : Type) (sample : nat -> nat -> M rng (list nat))
        (points : list (Q * Q)) (c1 : Q) (st st' : rng)
        (slope intercept : Q) (mask : list bool) :
  calculateLineCoefs rng (RANSAC_fit sample) points
                     (Some (validateDataLine c1)) st
  = (Ok (slope, intercept, mask), st') ->
  let xs := map fst points in
  let ys := map snd points in
  exists (winner : LinearModel Q) (k : nat) (idxs : list nat)
         (xsub ysub : list Q),
    (k < 100)%nat
    /\ draw_at sample k (length points) 2 st = Ok idxs
    /\ take_rows idxs xs = Ok xsub
    /\ take_rows idxs ys = Ok ysub
    /\ winner = fit_line xsub ysub
    /\ 25 < Qabs (c1 - intercept_ winner)
    /\ mask = map (fun xy => Qle_bool
                               (Qabs (snd xy
                                      - (coef_ winner * fst xy
                                         + intercept_ winner)))
                               (mad ys))
                  (combine xs ys)
    /\ slope = coef_ (fit_line (select mask xs) (select mask ys))
    /\ intercept = intercept_ (fit_line (select mask xs) (select mask ys)).
Proof.
  intros H xs ys. unfold calculateLineCoefs, RANSAC_fit in H.
  apply bind_ok in H. destruct H as (r & s1 & Hfit & H).
  apply ret_ok in H. destruct H as [E ->]. inversion E; subst; clear E.
  apply ransac_fit_refit in Hfit. destruct Hfit as ([m mk] & Hb & Hm & He).
  apply ransac_best_retained in Hb.
  destruct Hb as [(k & idxs & xsub & ysub & Hk & Hd & HX & Hy & Hw & Hv) Hmask].
  simpl in Hw, Hv, Hmask, Hm, He.
  rewrite length_map in Hd.
  exists m, k, idxs, xsub, ysub.
  split; [exact Hk|]. split; [exact Hd|].
  split; [exact HX|]. split; [exact Hy|]. split; [exact Hw|].
  split.
  - unfold model_ok, validateDataLine in Hv. simpl in Hv.
    inversion Hv as [Hlt]. apply Qlt_bool_lt. exact Hlt.
  - rewrite Hm, He. split; [exact Hmask|]. split; reflexivity.
Qed.

(** ** Concrete runs *)

(** C1 (counterexample).  On [two_segments] the first fit has intercept 0,
    the second intercept 30, and the mask of the first fit, the one with
    the smaller intercept, is returned as top, not as bottom. *)
Lemma splitTopBottomPoints_smaller_intercept_top :
  exists f bottom top st',
    split_fits tape (RANSAC_fit tape_sample) two_segments [[0; 1]%nat]
    = (Ok f, st')
    /\ splitTopBottomPoints tape (RANSAC_fit tape_sample) two_segments
                            [[0; 1]%nat]
       = (Ok (bottom, top), st')
    /\ intercept_first f < intercept_second f
    /\ top = first_set f
    /\ bottom <> first_set f.
Proof.
  eexists _, _, _, _.
  split; [vm_compute; reflexivity|].
  split; [vm_compute; reflexivity|].
  split; [reflexivity|].
  split; [reflexivity|].
  intros E. discriminate E.
Qed.

Lemma splitTopBottomPoints_order_witness :
  exists bottom top st',
    splitTopBottomPoints tape (RANSAC_fit tape_sample) two_segments
                         [[0; 1]%nat]
    = (Ok (bottom, top), st')
    /\ exists f,
      split_fits tape (RANSAC_fit tape_sample) two_segments [[0; 1]%nat]
      = (Ok f, st')
      /\ ((intercept_first f < intercept_second f
           /\ top = first_set f /\ bottom = second_set f)
          \/ (intercept_second f <= intercept_first f
              /\ top = second_set f /\ bottom = first_set f)).
Proof.
  eexists _, _, _.
  split; [vm_compute; reflexivity|].
  apply (splitTopBottomPoints_order tape (RANSAC_fit tape_sample)
                                    two_segments [[0; 1]%nat]).
  vm_compute. reflexivity.
Defined.

Lemma splitTopBottomPoints_disjoint_witness :
  exists bottom top st',
    splitTopBottomPoints tape (RANSAC_fit tape_sample) two_segments
                         [[0; 1]%nat]
    = (Ok (bottom, top), st')
    /\ forall r c, ~ (pixel bottom r c <> 0%Z /\ pixel top r c <> 0%Z).
Proof.
  eexists _, _, _.
  split; [vm_compute; reflexivity|].
  apply (splitTopBottomPoints_disjoint tape (RANSAC_fit tape_sample)
                                       two_segments [[0; 1]%nat] []).
  vm_compute. reflexivity.
Defined.

Lemma calculatePlaneCoefs_constraint_witness :
  exists c st',
    calculatePlaneCoefs tape (RANSAC_fit tape_sample) plane_cloud []
    = (Ok c, st')
    /\ vec3_eq (init4 c) (2, 3, -1) /\ last4 c == -5
    /\ exists reg,
      RANSAC_fit tape_sample _
                 {| base_estimator := LinearRegression_plane;
                    is_data_valid := Some validateData;
                    is_model_valid := None;
                    residual_threshold := Some (1 # 100);
                    max_trials := Some 1000%nat |}
                 (map (fun p : vec3 => let '(x, y, _) := p in (x, y))
                      plane_cloud)
                 (map (fun p : vec3 => let '(_, _, z) := p in z) plane_cloud)
                 []
      = (Ok reg, st')
      /\ let A := fst (coef_ (estimator_ reg)) in
         let B := snd (coef_ (estimator_ reg)) in
         let D := intercept_ (estimator_ reg) in
         c = (A, B, - (1), - D)
         /\ forall x y z,
             constraint_holds c (x, y, z) <-> z == A * x + B * y + D.
Proof.
  eexists _, _.
  split; [vm_compute; reflexivity|].
  split; [vm_compute; repeat split; reflexivity|].
  split; [vm_compute; reflexivity|].
  apply (calculatePlaneCoefs_constraint tape (RANSAC_fit tape_sample)
                                        plane_cloud [] []).
  vm_compute. reflexivity.
Defined.

(** C2 (counterexample).  A sample whose first two points share their z
    value, the third differing, is accepted. *)
Lemma validateData_accepts_two_equal :
  (1 : Q) == 1
  /\ validateData [(0, 0); (1, 0); (0, 1)] [1; 1; 2] = Ok true.
Proof.
  split; reflexivity.
Qed.

(** C2 (amended).  On a sample of three points [validateData] returns
    false exactly when all three z values are identical, and true
    otherwise. *)
Theorem validateData_rejects_iff_all_equal
        (a : list (Q * Q)) (z0 z1 z2 : Q) :
  (validateData a [z0; z1; z2] = Ok false <-> (z0 == z1 /\ z1 == z2))
  /\ (validateData a [z0; z1; z2] = Ok true <-> ~ (z0 == z1 /\ z1 == z2)).
Proof.
  unfold validateData.
  destruct (Qeq_bool z0 z1) eqn:E01.
  - apply Qeq_bool_iff in E01.
    destruct (Qeq_bool z1 z2) eqn:E12; simpl.
    + apply Qeq_bool_iff in E12. split; split; intros H; auto.
      * discriminate.
      * exfalso. apply H. auto.
    + apply Qeq_bool_false_neq in E12. split; split; intros H; auto.
      * discriminate.
      * destruct H as [_ H]. contradiction.
      * tauto.
  - apply Qeq_bool_false_neq in E01. split; split; intros H; auto.
    + discriminate.
    + destruct H as [H _]. contradiction.
    + tauto.
Qed.

(** C5 (counterexample).  With reference intercept 0 and the subset of the
    first two points drawn, the candidate line [y = 26] is accepted, its
    inliers are the first three points, and the line returned, the refit
    over them, has intercept 74/3, within 25 of the reference. *)
Lemma calculateLineCoefs_returns_within_threshold :
  exists slope intercept mask st',
    calculateLineCoefs tape (RANSAC_fit tape_sample) six_points
                       (Some (validateDataLine 0)) [[0; 1]%nat]
    = (Ok (slope, intercept, mask), st')
    /\ intercept == 74 # 3
    /\ ~ 25 < Qabs (0 - intercept).
Proof.
  eexists _, _, _, _.
  split; [vm_compute; reflexivity|].
  split; [reflexivity|].
  intros H. vm_compute in H. discriminate H.
Qed.

Lemma calculateLineCoefs_winner_distinct_witness :
  exists slope intercept mask st',
    calculateLineCoefs tape (RANSAC_fit tape_sample) six_points
                       (Some (validateDataLine 0)) [[0; 1]%nat]
    = (Ok (slope, intercept, mask), st')
    /\ exists (winner : LinearModel Q) (k : nat) (idxs : list nat)
              (xsub ysub : list Q),
      (k < 100)%nat
      /\ draw_at tape_sample k (length six_points) 2 [[0; 1]%nat] = Ok idxs
      /\ take_rows idxs (map fst six_points) = Ok xsub
      /\ take_rows idxs (map snd six_points) = Ok ysub
      /\ winner = fit_line xsub ysub
      /\ 25 < Qabs (0 - intercept_ winner)
      /\ mask = map (fun xy => Qle_bool
                                 (Qabs (snd xy
                                        - (coef_ winner * fst xy
                                           + intercept_ winner)))
                                 (mad (map snd six_points)))
                    (combine (map fst six_points) (map snd six_points))
      /\ slope = coef_ (fit_line (select mask (map fst six_points))
                                 (select mask (map snd six_points)))
      /\ intercept = intercept_ (fit_line (select mask (map fst six_points))
                                          (select mask (map snd six_points))).
Proof.
  eexists _, _, _, _.
  split; [vm_compute; reflexivity|].
  apply (calculateLineCoefs_winner_distinct tape tape_sample six_points 0
                                            [[0; 1]%nat] []).
  vm_compute. reflexivity.
Defined.

Lemma get_xyz_coords_unique_point_witness :
  ~ system_det 60 70 demo_ppm (0, 0, 1, 0) == 0
  /\ exists p,
    get_xyz_coords 60 70 demo_ppm (Some [(0, 0, 1, 0)]) = Ok p
    /\ dot3 (init4 (sub4 (scale4 (row2 demo_ppm) 60) (row0 demo_ppm))) p
       == - last4 (sub4 (scale4 (row2 demo_ppm) 60) (row0 demo_ppm))
    /\ dot3 (init4 (sub4 (scale4 (row2 demo_ppm) 70) (row1 demo_ppm))) p
       == - last4 (sub4 (scale4 (row2 demo_ppm) 70) (row1 demo_ppm))
    /\ dot3 (init4 (0, 0, 1, 0)) p == last4 (0, 0, 1, 0)
    /\ forall q,
        dot3 (init4 (sub4 (scale4 (row2 demo_ppm) 60) (row0 demo_ppm))) q
        == - last4 (sub4 (scale4 (row2 demo_ppm) 60) (row0 demo_ppm)) ->
        dot3 (init4 (sub4 (scale4 (row2 demo_ppm) 70) (row1 demo_ppm))) q
        == - last4 (sub4 (scale4 (row2 demo_ppm) 70) (row1 demo_ppm)) ->
        dot3 (init4 (0, 0, 1, 0)) q == last4 (0, 0, 1, 0) ->
        vec3_eq q p.
Proof.
  assert (Hd : ~ system_det 60 70 demo_ppm (0, 0, 1, 0) == 0)
    by (intros H; vm_compute in H; discriminate H).
  split; [exact Hd|].
  exact (get_xyz_coords_unique_point 60 70 demo_ppm (0, 0, 1, 0) Hd).
Defined.

Lemma get_xyz_coords_fails_witness :
  get_xyz_coords 60 70 demo_ppm (Some []) = Raise LinAlgError
  /\ get_xyz_coords 60 70 demo_ppm (Some [(0, 0, 1, 0); (0, 0, 2, 0)])
     = Raise LinAlgError.
Proof.
  split.
  - apply (get_xyz_coords_fails 60 70 demo_ppm []). left. reflexivity.
  - apply (get_xyz_coords_fails 60 70 demo_ppm [(0, 0, 1, 0); (0, 0, 2, 0)]).
    right. simpl. lia.
Defined.

(** C6 (counterexample).  At pixel (0, 0) the constraint
    [300 x + 150 z = 7] makes the stacked system exactly singular, its
    third row being -3 times the first, and no point solves it; the
    elimination scales by the rounded reciprocal of the pivot 300, is left
    with the pivot [2^-47], not zero, and a point is returned. *)
Lemma get_xyz_coords_singular_returns :
  system_det 0 0 demo_ppm (300, 0, 150, 7) == 0
  /\ get_xyz_coords 0 0 demo_ppm (Some [(300, 0, 150, 7)])
     <> Raise LinAlgError
  /\ exists p, get_xyz_coords 0 0 demo_ppm (Some [(300, 0, 150, 7)]) = Ok p
               /\ ~ constraint_holds (300, 0, 150, 7) p.
Proof.
  split; [vm_compute; reflexivity|].
  split; [vm_compute; discriminate|].
  eexists. split; [vm_compute; reflexivity|].
  intros H. vm_compute in H. discriminate H.
Qed.

(** C3 (counterexample).  The point (0, 2, 0) has depth 10 under
    [demo_ppm] and lies on the plane [x = 0], which also holds the camera
    centre and so the whole viewing ray of the point: the stacked system
    at its pixel (50, 70) is singular, and the back-projection raises
    instead of returning the point. *)
Lemma backproject_plane_through_ray :
  ~ dot3 (init4 (row2 demo_ppm)) (0, 2, 0) + last4 (row2 demo_ppm) == 0
  /\ constraint_holds (1, 0, 0, 0) (0, 2, 0)
  /\ fst (project demo_ppm (0, 2, 0)) == 50
  /\ snd (project demo_ppm (0, 2, 0)) == 70
  /\ get_xyz_coords (fst (project demo_ppm (0, 2, 0)))
                    (snd (project demo_ppm (0, 2, 0)))
                    demo_ppm (Some [(1, 0, 0, 0)])
     = Raise LinAlgError.
Proof.
  split; [intros H; vm_compute in H; discriminate H|].
  repeat split; vm_compute; reflexivity.
Qed.

Lemma project_backproject_roundtrip_witness :
  project demo_ppm (1, 2, 0) = (600 / 10, 700 / 10)
  /\ constraint_holds (0, 0, 1, 0) (1, 2, 0)
  /\ exists q,
    get_xyz_coords (fst (project demo_ppm (1, 2, 0)))
                   (snd (project demo_ppm (1, 2, 0)))
                   demo_ppm (Some [(0, 0, 1, 0)]) = Ok q
    /\ vec3_eq q (1, 2, 0).
Proof.
  split; [vm_compute; reflexivity|].
  split; [vm_compute; reflexivity|].
  apply (project_backproject_roundtrip (fun _ => identity33) camera
                                       (0, 0, 0) (0, 0, 10) (1, 2, 0)
                                       (0, 0, 1, 0)).
  - intros H. vm_compute in H. discriminate H.
  - vm_compute. reflexivity.
  - intros H. vm_compute in H. discriminate H.
Defined.

(** Without seeding, a second run continues from the generator state the
    first run left and can return something else. *)
Example unseeded_runs_differ :
  let pts := [(0, 0); (1, 1); (2, 0); (3, 1)] in
  let run := calculateLineCoefs tape (RANSAC_fit tape_sample) pts None in
  let st := repeat [0; 2]%nat 100 ++ [[1; 3]%nat] in
  exists r1 r2 st1 st2,
    run st = (Ok r1, st1) /\ run st1 = (Ok r2, st2) /\ r1 <> r2.
Proof.
  eexists _, _, _, _.
  split; [vm_compute; reflexivity|].
  split; [vm_compute; reflexivity|].
  intros E. discriminate E.
Qed.

(** * Further properties of the code *)

(** ** Back-projection *)

Lemma get_xyz_coords_many (i j : Q) (ppm : mat34) (cs : list constraint) :
  length cs <> 1%nat -> get_xyz_coords i j ppm (Some cs) = Raise LinAlgError.
Proof.
  intros H. unfold get_xyz_coords.
  match goal with
  | |- context [append_constraints cs ?a ?b] =>
    pose proof (append_constraints_length cs a b) as [La _];
      destruct (append_constraints cs a b) as [a' b']
  end.
  apply linalg_solve_not_square. simpl in La. lia.
Qed.

Lemma get_xyz_coords_regular_inv (i j : Q) (ppm : mat34) (c : constraint)
      (p : vec3) :
  ~ system_det i j ppm c == 0 ->
  get_xyz_coords i j ppm (Some [c]) = Ok p ->
  on_ray i j ppm p /\ constraint_holds c p.
Proof.
  intros N H.
  destruct (get_xyz_coords_solves i j ppm c N) as (q & Hq & Hr & Hc & _).
  rewrite Hq in H. inversion H; subst q. split; assumption.
Qed.

Lemma on_ray_project (i j : Q) (ppm : mat34) (p : vec3) :
  on_ray i j ppm p -> ~ depth ppm p == 0 ->
  fst (project ppm p) == i /\ snd (project ppm p) == j.
Proof.
  destruct ppm as [[[[[a0 a1] a2] a3] [[[b0 b1] b2] b3]] [[[c0 c1] c2] c3]].
  destruct p as [[x y] z].
  unfold on_ray, project, homogeneous_image, ray_rows, ray_rhs, depth; simpl.
  intros [R0 R1] Hw.
  set (w := c0 * x + c1 * y + c2 * z + c3) in *.
  assert (E0 : a0 * x + a1 * y + a2 * z + a3 == i * w).
  { unfold w.
    setoid_replace (i * (c0 * x + c1 * y + c2 * z + c3))
      with ((c0 * i - a0) * x + (c1 * i - a1) * y + (c2 * i - a2) * z
            - - (c3 * i - a3) + (a0 * x + a1 * y + a2 * z + a3)) by ring.
    rewrite R0. ring. }
  assert (E1 : b0 * x + b1 * y + b2 * z + b3 == j * w).
  { unfold w.
    setoid_replace (j * (c0 * x + c1 * y + c2 * z + c3))
      with ((c0 * j - b0) * x + (c1 * j - b1) * y + (c2 * j - b2) * z
            - - (c3 * j - b3) + (b0 * x + b1 * y + b2 * z + b3)) by ring.
    rewrite R1. ring. }
  split.
  - rewrite E0. field. exact Hw.
  - rewrite E1. field. exact Hw.
Qed.

(** X2.  For a non-singular stacked system, the point [get_xyz_coords]
    returns for pixel [(i, j)], when its depth is not zero, projects back
    onto that pixel and satisfies the constraint it was computed with. *)
Theorem backproject_then_project (i j : Q) (ppm : mat34) (c : constraint)
        (p : vec3) :
  ~ system_det i j ppm c == 0 ->
  get_xyz_coords i j ppm (Some [c]) = Ok p ->
  ~ depth ppm p == 0 ->
  fst (project ppm p) == i /\ snd (project ppm p) == j
  /\ constraint_holds c p.
Proof.
  intros N H Hw.
  destruct (get_xyz_coords_regular_inv i j ppm c p N H) as [Hr Hc].
  destruct (on_ray_project i j ppm p Hr Hw) as [E0 E1].
  repeat split; assumption.
Qed.

Lemma backproject_then_project_witness :
  ~ system_det 60 70 demo_ppm (0, 0, 1, 0) == 0
  /\ exists p,
    get_xyz_coords 60 70 demo_ppm (Some [(0, 0, 1, 0)]) = Ok p
    /\ ~ depth demo_ppm p == 0
    /\ fst (project demo_ppm p) == 60 /\ snd (project demo_ppm p) == 70
    /\ constraint_holds (0, 0, 1, 0) p.
Proof.
  assert (N : ~ system_det 60 70 demo_ppm (0, 0, 1, 0) == 0)
    by (intros H; vm_compute in H; discriminate H).
  split; [exact N|].
  eexists. split; [vm_compute; reflexivity|].
  match goal with
  | |- ~ depth demo_ppm ?p == 0 /\ _ =>
    assert (Hd : ~ depth demo_ppm p == 0)
      by (intros H; vm_compute in H; discriminate H);
      split; [exact Hd|];
      apply (backproject_then_project 60 70 demo_ppm (0, 0, 1, 0) p N);
      [vm_compute; reflexivity|exact Hd]
  end.
Defined.

Lemma system_det_scale34 (i j k : Q) (ppm : mat34) (c : constraint) :
  system_det i j (scale34 ppm k) c == k * k * system_det i j ppm c.
Proof.
  destruct ppm as [[[[[a0 a1] a2] a3] [[[b0 b1] b2] b3]] [[[c0 c1] c2] c3]].
  destruct c as [[[ca cb] cc] cd].
  unfold system_det, scale34, ray_rows; simpl. ring.
Qed.

Lemma on_ray_scale34 (i j k : Q) (ppm : mat34) (p : vec3) :
  ~ k == 0 -> on_ray i j (scale34 ppm k) p -> on_ray i j ppm p.
Proof.
  destruct ppm as [[[[[a0 a1] a2] a3] [[[b0 b1] b2] b3]] [[[c0 c1] c2] c3]].
  destruct p as [[x y] z].
  unfold on_ray, scale34, ray_rows, ray_rhs; simpl.
  intros Hk [R0 R1]. split.
  - apply (Qmult_inj_l _ _ k Hk).
    setoid_replace (k * ((c0 * i - a0) * x + (c1 * i - a1) * y
                         + (c2 * i - a2) * z))
      with ((c0 * k * i - a0 * k) * x + (c1 * k * i - a1 * k) * y
            + (c2 * k * i - a2 * k) * z) by ring.
    rewrite R0. ring.
  - apply (Qmult_inj_l _ _ k Hk).
    setoid_replace (k * ((c0 * j - b0) * x + (c1 * j - b1) * y
                         + (c2 * j - b2) * z))
      with ((c0 * k * j - b0 * k) * x + (c1 * k * j - b1 * k) * y
            + (c2 * k * j - b2 * k) * z) by ring.
    rewrite R1. ring.
Qed.

Lemma Qmult_nonzero (x y : Q) : ~ x == 0 -> ~ y == 0 -> ~ x * y == 0.
Proof.
  intros Hx Hy E. apply Qmult_integral in E. tauto.
Qed.

(** X3.  The projection matrix is homogeneous for [get_xyz_coords]: for
    a non-singular stacked system, multiplying the matrix by a non-zero
    scalar leaves the returned point unchanged. *)
Theorem get_xyz_coords_scale_ppm (i j k : Q) (ppm : mat34) (c : constraint)
        (p : vec3) :
  ~ k == 0 ->
  ~ system_det i j ppm c == 0 ->
  get_xyz_coords i j ppm (Some [c]) = Ok p ->
  exists q, get_xyz_coords i j (scale34 ppm k) (Some [c]) = Ok q
            /\ vec3_eq q p.
Proof.
  intros Hk Hd H.
  destruct (get_xyz_coords_regular_inv i j ppm c p Hd H) as [Hr Hc].
  assert (Hd' : ~ system_det i j (scale34 ppm k) c == 0).
  { rewrite system_det_scale34.
    apply Qmult_nonzero; [apply Qmult_nonzero; exact Hk|exact Hd]. }
  destruct (get_xyz_coords_solves i j (scale34 ppm k) c Hd')
    as (q & Hq & Hrq & Hcq & _).
  exists q. split; [exact Hq|].
  destruct (get_xyz_coords_solves i j ppm c Hd) as (p' & Hp' & Hrp & Hcp & Hu).
  assert (E1 : vec3_eq q p')
    by (apply Hu; [exact (on_ray_scale34 i j k ppm q Hk Hrq)|exact Hcq]).
  assert (E2 : vec3_eq p p') by (apply Hu; assumption).
  destruct p as [[x y] z], q as [[x' y'] z'], p' as [[x0 y0] z0].
  unfold vec3_eq in *.
  destruct E1 as (A0 & A1 & A2), E2 as (B0 & B1 & B2).
  rewrite A0, A1, A2, B0, B1, B2. repeat split; reflexivity.
Qed.

Lemma get_xyz_coords_scale_ppm_witness :
  ~ system_det 60 70 demo_ppm (0, 0, 1, 0) == 0
  /\ exists p,
    get_xyz_coords 60 70 demo_ppm (Some [(0, 0, 1, 0)]) = Ok p
    /\ exists q,
      get_xyz_coords 60 70 (scale34 demo_ppm (7 # 2)) (Some [(0, 0, 1, 0)])
      = Ok q
      /\ vec3_eq q p.
Proof.
  assert (N : ~ system_det 60 70 demo_ppm (0, 0, 1, 0) == 0)
    by (intros H; vm_compute in H; discriminate H).
  split; [exact N|].
  eexists. split; [vm_compute; reflexivity|].
  apply (get_xyz_coords_scale_ppm 60 70 (7 # 2) demo_ppm (0, 0, 1, 0)).
  - intros H. vm_compute in H. discriminate H.
  - exact N.
  - vm_compute. reflexivity.
Defined.

Lemma system_det_scale_constraint (i j k : Q) (ppm : mat34) (c : constraint) :
  system_det i j ppm (scale4 c k) == k * system_det i j ppm c.
Proof.
  destruct ppm as [[[[[a0 a1] a2] a3] [[[b0 b1] b2] b3]] [[[c0 c1] c2] c3]].
  destruct c as [[[ca cb] cc] cd].
  unfold system_det, ray_rows; simpl. ring.
Qed.

Lemma constraint_holds_scale (k : Q) (c : constraint) (p : vec3) :
  ~ k == 0 -> constraint_holds (scale4 c k) p -> constraint_holds c p.
Proof.
  destruct c as [[[ca cb] cc] cd], p as [[x y] z].
  unfold constraint_holds; simpl. intros Hk H.
  apply (Qmult_inj_l _ _ k Hk).
  setoid_replace (k * (ca * x + cb * y + cc * z))
    with (ca * k * x + cb * k * y + cc * k * z) by ring.
  rewrite H. ring.
Qed.

(** X4.  For a non-singular stacked system, a constraint [[a, b, c, d]]
    and its multiple by a non-zero scalar give the same point. *)
Theorem get_xyz_coords_scale_constraint (i j k : Q) (ppm : mat34)
        (c : constraint) (p : vec3) :
  ~ k == 0 ->
  ~ system_det i j ppm c == 0 ->
  get_xyz_coords i j ppm (Some [c]) = Ok p ->
  exists q, get_xyz_coords i j ppm (Some [scale4 c k]) = Ok q
            /\ vec3_eq q p.
Proof.
  intros Hk Hd H.
  destruct (get_xyz_coords_regular_inv i j ppm c p Hd H) as [Hr Hc].
  assert (Hd' : ~ system_det i j ppm (scale4 c k) == 0).
  { rewrite system_det_scale_constraint.
    apply Qmult_nonzero; assumption. }
  destruct (get_xyz_coords_solves i j ppm (scale4 c k) Hd')
    as (q & Hq & Hrq & Hcq & _).
  exists q. split; [exact Hq|].
  destruct (get_xyz_coords_solves i j ppm c Hd) as (p' & Hp' & Hrp & Hcp & Hu).
  assert (E1 : vec3_eq q p')
    by (apply Hu; [exact Hrq|exact (constraint_holds_scale k c q Hk Hcq)]).
  assert (E2 : vec3_eq p p') by (apply Hu; assumption).
  destruct p as [[x y] z], q as [[x' y'] z'], p' as [[x0 y0] z0].
  unfold vec3_eq in *.
  destruct E1 as (A0 & A1 & A2), E2 as (B0 & B1 & B2).
  rewrite A0, A1, A2, B0, B1, B2. repeat split; reflexivity.
Qed.

Lemma get_xyz_coords_scale_constraint_witness :
  ~ system_det 60 70 demo_ppm (1, 0, 1, 1) == 0
  /\ exists p,
    get_xyz_coords 60 70 demo_ppm (Some [(1, 0, 1, 1)]) = Ok p
    /\ exists q,
      get_xyz_coords 60 70 demo_ppm (Some [scale4 (1, 0, 1, 1) (-3)]) = Ok q
      /\ vec3_eq q p.
Proof.
  assert (N : ~ system_det 60 70 demo_ppm (1, 0, 1, 1) == 0)
    by (intros H; vm_compute in H; discriminate H).
  split; [exact N|].
  eexists. split; [vm_compute; reflexivity|].
  apply (get_xyz_coords_scale_constraint 60 70 (-3) demo_ppm (1, 0, 1, 1)).
  - intros H. vm_compute in H. discriminate H.
  - exact N.
  - vm_compute. reflexivity.
Defined.

(** ** Projection matrix *)

(** X5.  The matrix built by [calculatePpmMatrix] sends a world point [p]
    to the homogeneous image point [K (R p + t)], with [R] the rotation
    matrix of the rotation vector. *)
Theorem calculatePpmMatrix_image
        (Rodrigues : vec3 -> mat33) (intrinsic_matrix : mat33)
        (rotation_vecs translation_vecs : vec3) (p : vec3) :
  vec3_eq
    (homogeneous_image
       (calculatePpmMatrix Rodrigues intrinsic_matrix
                           rotation_vecs translation_vecs) p)
    (matvec33 intrinsic_matrix
              (add3 (matvec33 (Rodrigues rotation_vecs) p) translation_vecs)).
Proof.
  unfold calculatePpmMatrix.
  destruct (Rodrigues rotation_vecs)
    as [[[[r00 r01] r02] [[r10 r11] r12]] [[r20 r21] r22]].
  destruct intrinsic_matrix
    as [[[[k00 k01] k02] [[k10 k11] k12]] [[k20 k21] k22]].
  destruct translation_vecs as [[t0 t1] t2], p as [[x y] z].
  unfold vec3_eq; simpl. repeat split; ring.
Qed.

(** ** Non-zero pixels *)

Lemma nonzero_cols_spec (row : list Z) :
  forall c0 x,
    In x (nonzero_cols row c0)
    <-> (c0 <= x)%nat /\ nth (x - c0) row 0%Z <> 0%Z.
Proof.
  induction row as [|v row IH]; intros c0 x; simpl.
  - split; [tauto|]. intros [_ H]. destruct (x - c0)%nat; congruence.
  - destruct (Z.eqb_spec v 0) as [Ev|Nv].
    + rewrite IH. split.
      * intros [Hle Hn]. split; [lia|].
        replace (x - c0)%nat with (S (x - S c0)) by lia. exact Hn.
      * intros [Hle Hn]. destruct (x - c0)%nat as [|n] eqn:En.
        -- congruence.
        -- split; [lia|]. replace (x - S c0)%nat with n by lia. exact Hn.
    + simpl. rewrite IH. split.
      * intros [<-|[Hle Hn]].
        -- split; [lia|]. rewrite Nat.sub_diag. exact Nv.
        -- split; [lia|].
           replace (x - c0)%nat with (S (x - S c0)) by lia. exact Hn.
      * intros [Hle Hn]. destruct (x - c0)%nat as [|n] eqn:En.
        -- left. lia.
        -- right. split; [lia|].
           replace (x - S c0)%nat with n by lia. exact Hn.
Qed.

Lemma nonzero_from_spec (img : image) :
  forall r0 c r,
    In (c, r) (nonzero_from img r0)
    <-> (r0 <= r)%nat /\ pixel img (r - r0) c <> 0%Z.
Proof.
  induction img as [|row img IH]; intros r0 c r; simpl.
  - split; [tauto|]. intros [_ H]. unfold pixel in H.
    destruct (r - r0)%nat, c; simpl in H; congruence.
  - rewrite in_app_iff, in_map_iff, IH. unfold pixel. split.
    + intros [(c' & E & Hin)|[Hle Hn]].
      * inversion E; subst c' r. apply nonzero_cols_spec in Hin.
        rewrite Nat.sub_diag. simpl. rewrite Nat.sub_0_r in Hin.
        split; [lia|tauto].
      * split; [lia|].
        replace (r - r0)%nat with (S (r - S r0)) by lia. exact Hn.
    + intros [Hle Hn]. destruct (r - r0)%nat as [|n] eqn:En.
      * left. exists c. assert (r = r0) by lia. subst r.
        split; [reflexivity|]. apply nonzero_cols_spec.
        rewrite Nat.sub_0_r. simpl in Hn. split; [lia|exact Hn].
      * right. split; [lia|]. replace (r - S r0)%nat with n by lia. exact Hn.
Qed.

Lemma findNonZero_Some (src : image) (pts : list (nat * nat)) :
  findNonZero src = Some pts ->
  pts = nonzero_from src 0 /\ pts <> [].
Proof.
  unfold findNonZero. destruct (nonzero_from src 0) as [|pt l];
    intros E; inversion E. split; [reflexivity|discriminate].
Qed.

Lemma findNonZero_In (src : image) (pts : list (nat * nat)) (c r : nat) :
  findNonZero src = Some pts ->
  (In (c, r) pts <-> pixel src r c <> 0%Z).
Proof.
  intros H. apply findNonZero_Some in H. destruct H as [-> _].
  rewrite nonzero_from_spec, Nat.sub_0_r. split; [tauto|].
  intros Hn. split; [lia|exact Hn].
Qed.

Lemma findNonZero_None (src : image) :
  findNonZero src = None <-> (forall r c, pixel src r c = 0%Z).
Proof.
  unfold findNonZero. split.
  - destruct (nonzero_from src 0) as [|pt l] eqn:E; [|discriminate].
    intros _ r c. destruct (Z.eq_dec (pixel src r c) 0) as [Z0|N]; [exact Z0|].
    exfalso. assert (Hin : In (c, r) (nonzero_from src 0))
      by (apply nonzero_from_spec; rewrite Nat.sub_0_r; split; [lia|exact N]).
    rewrite E in Hin. exact Hin.
  - intros Hz. destruct (nonzero_from src 0) as [|[c r] l] eqn:E;
      [reflexivity|].
    exfalso. assert (Hin : In (c, r) (nonzero_from src 0))
      by (rewrite E; left; reflexivity).
    apply nonzero_from_spec in Hin. destruct Hin as [_ Hn].
    apply Hn. apply Hz.
Qed.

Lemma pixel_nonzero_in_image (img : image) (c r : nat) :
  pixel img r c <> 0%Z -> in_image img (c, r).
Proof.
  unfold pixel, in_image; simpl. intros H.
  destruct (nth_error img r) as [row|] eqn:E.
  - exists row. split; [reflexivity|].
    rewrite (nth_error_nth _ _ [] E) in H.
    destruct (Nat.lt_ge_cases c (length row)) as [Hlt|Hge]; [exact Hlt|].
    rewrite nth_overflow in H by exact Hge. congruence.
  - apply nth_error_None in E.
    rewrite (nth_overflow img [] E) in H.
    destruct c; simpl in H; congruence.
Qed.

(** ** Point clouds *)

(** X6.  [getWhitePoint3DCoords] raises [TypeError] on a mask without a
    non-zero pixel, and on any mask when [constraints] is [None]. *)
Theorem getWhitePoint3DCoords_TypeError (points : image)
        (constraints : option (list constraint)) (ppm : mat34) :
  (forall r c, pixel points r c = 0%Z) \/ constraints = None ->
  getWhitePoint3DCoords points constraints ppm = Raise TypeError.
Proof.
  unfold getWhitePoint3DCoords. intros [Hz | ->].
  - apply findNonZero_None in Hz. rewrite Hz. reflexivity.
  - destruct (findNonZero points) as [pixels|] eqn:E; [|reflexivity].
    apply findNonZero_Some in E. destruct E as [_ Hne].
    destruct pixels as [|px rest]; [congruence|]. reflexivity.
Qed.

Lemma getWhitePoint3DCoords_TypeError_witness :
  getWhitePoint3DCoords [[0; 0]%Z; [0; 0]%Z] (Some [(0, 0, 1, 0)]) demo_ppm
  = Raise TypeError
  /\ getWhitePoint3DCoords two_segments None demo_ppm = Raise TypeError.
Proof.
  split.
  - apply (getWhitePoint3DCoords_TypeError [[0; 0]%Z; [0; 0]%Z]).
    left. intros [|[|[|r]]] [|[|[|c]]]; reflexivity.
  - apply (getWhitePoint3DCoords_TypeError two_segments None demo_ppm).
    right. reflexivity.
Defined.

(** X7.  On a mask with a non-zero pixel, [getWhitePoint3DCoords] raises
    [LinAlgError] unless exactly one constraint is given. *)
Theorem getWhitePoint3DCoords_constraint_count (points : image)
        (cs : list constraint) (ppm : mat34) (r c : nat) :
  pixel points r c <> 0%Z ->
  length cs <> 1%nat ->
  getWhitePoint3DCoords points (Some cs) ppm = Raise LinAlgError.
Proof.
  intros Hp Hn. unfold getWhitePoint3DCoords.
  destruct (findNonZero points) as [pixels|] eqn:E.
  - apply findNonZero_Some in E. destruct E as [_ Hne].
    destruct pixels as [|px rest]; [congruence|].
    cbn [backproject_pixels].
    rewrite (get_xyz_coords_many _ _ ppm cs Hn). reflexivity.
  - exfalso. apply Hp. apply findNonZero_None. exact E.
Qed.

Lemma getWhitePoint3DCoords_constraint_count_witness :
  getWhitePoint3DCoords two_segments (Some []) demo_ppm = Raise LinAlgError
  /\ getWhitePoint3DCoords two_segments
                           (Some [(0, 0, 1, 0); (1, 0, 0, 0)]) demo_ppm
     = Raise LinAlgError.
Proof.
  split.
  - apply (getWhitePoint3DCoords_constraint_count two_segments [] demo_ppm
                                                  0 0);
      [vm_compute|simpl]; discriminate.
  - apply (getWhitePoint3DCoords_constraint_count
             two_segments [(0, 0, 1, 0); (1, 0, 0, 0)] demo_ppm 0 0);
      [vm_compute|simpl]; discriminate.
Defined.

Lemma backproject_pixels_ok (pixels : list (nat * nat))
      (cs : option (list constraint)) (ppm : mat34) :
  forall res,
    backproject_pixels pixels cs ppm = Ok res ->
    Forall2 (fun px p =>
               get_xyz_coords (fst (to_float px)) (snd (to_float px)) ppm cs
               = Ok p)
            pixels res.
Proof.
  induction pixels as [|px rest IH]; intros res H; simpl in H.
  - inversion H. constructor.
  - apply rbind_ok in H. destruct H as (p & Hp & H).
    apply rbind_ok in H. destruct H as (res' & Hres & H).
    inversion H; subst res. constructor; [exact Hp|apply IH; exact Hres].
Qed.

(** X8.  With one constraint and a non-singular system at every non-zero
    pixel of the mask, a result of [getWhitePoint3DCoords] lists one point
    for each pixel of [cv2.findNonZero], in the order [findNonZero] lists
    them: the point lies on the ray of its pixel (column, row) and satisfies
    the constraint. *)
Theorem getWhitePoint3DCoords_points (points : image) (c : constraint)
        (ppm : mat34) (res : list vec3) :
  (forall x y, pixel points y x <> 0%Z ->
               ~ system_det (inject_Z (Z.of_nat x)) (inject_Z (Z.of_nat y))
                            ppm c == 0) ->
  getWhitePoint3DCoords points (Some [c]) ppm = Ok res ->
  exists pixels,
    findNonZero points = Some pixels
    /\ Forall2 (fun px p =>
                  on_ray (fst (to_float px)) (snd (to_float px)) ppm p
                  /\ constraint_holds c p)
               pixels res.
Proof.
  unfold getWhitePoint3DCoords. intros Hd H.
  destruct (findNonZero points) as [pixels|] eqn:E; [|discriminate H].
  exists pixels. split; [reflexivity|].
  apply backproject_pixels_ok in H.
  assert (Hin : forall px, In px pixels ->
                           ~ system_det (fst (to_float px))
                                        (snd (to_float px)) ppm c == 0).
  { intros [x y] Hpx. apply Hd. apply (findNonZero_In _ _ x y E). exact Hpx. }
  clear E Hd.
  induction H as [|px p l l' Hp _ IH]; constructor.
  - apply (get_xyz_coords_regular_inv _ _ ppm c p); [|exact Hp].
    apply Hin. left. reflexivity.
  - apply IH. intros px' Hpx'. apply Hin. right. exact Hpx'.
Qed.

(** A 2 x 2 mask with two non-zero pixels. *)
Lemma getWhitePoint3DCoords_points_witness :
  exists res,
    getWhitePoint3DCoords [[255; 0]%Z; [0; 255]%Z] (Some [(0, 0, 1, 0)])
                          demo_ppm = Ok res
    /\ exists pixels,
      findNonZero [[255; 0]%Z; [0; 255]%Z] = Some pixels
      /\ Forall2 (fun px p =>
                    on_ray (fst (to_float px)) (snd (to_float px)) demo_ppm p
                    /\ constraint_holds (0, 0, 1, 0) p)
                 pixels res.
Proof.
  eexists. split; [vm_compute; reflexivity|].
  apply (getWhitePoint3DCoords_points [[255; 0]%Z; [0; 255]%Z]
                                      (0, 0, 1, 0) demo_ppm).
  - intros [|[|[|x]]] [|[|[|y]]] H;
      try (exfalso; apply H; reflexivity);
      intros D; vm_compute in D; discriminate D.
  - vm_compute. reflexivity.
Defined.

Lemma backproject_pixels_regular (c : constraint) (ppm : mat34)
      (pixels : list (nat * nat)) :
  (forall px, In px pixels ->
              ~ system_det (fst (to_float px)) (snd (to_float px)) ppm c == 0) ->
  exists res, backproject_pixels pixels (Some [c]) ppm = Ok res
              /\ length res = length pixels.
Proof.
  induction pixels as [|px rest IH]; intros Hd.
  - exists []. split; reflexivity.
  - destruct IH as (res & Hres & Hlen);
      [intros px' Hin; apply Hd; right; exact Hin|].
    destruct (get_xyz_coords_solves _ _ ppm c (Hd px (or_introl eq_refl)))
      as (p & Hp & _).
    exists (p :: res). split; [|simpl; congruence].
    cbn [backproject_pixels]. rewrite Hp. cbn [rbind].
    rewrite Hres. reflexivity.
Qed.

(** X9.  With one constraint, a mask with a non-zero pixel, and a
    non-singular system at every non-zero pixel, [getWhitePoint3DCoords]
    returns, with as many points as the mask has non-zero pixels. *)
Theorem getWhitePoint3DCoords_returns (points : image) (c : constraint)
        (ppm : mat34) (r0 c0 : nat) :
  pixel points r0 c0 <> 0%Z ->
  (forall x y, pixel points y x <> 0%Z ->
               ~ system_det (inject_Z (Z.of_nat x)) (inject_Z (Z.of_nat y))
                            ppm c == 0) ->
  exists res pixels,
    getWhitePoint3DCoords points (Some [c]) ppm = Ok res
    /\ findNonZero points = Some pixels
    /\ length res = length pixels.
Proof.
  intros Hp Hd. unfold getWhitePoint3DCoords.
  destruct (findNonZero points) as [pixels|] eqn:E.
  - destruct (backproject_pixels_regular c ppm pixels) as (res & Hres & Hlen).
    + intros [x y] Hin. apply Hd. apply (findNonZero_In _ _ x y E). exact Hin.
    + exists res, pixels. repeat split; assumption.
  - exfalso. apply Hp. apply findNonZero_None. exact E.
Qed.

Lemma getWhitePoint3DCoords_returns_witness :
  exists res pixels,
    getWhitePoint3DCoords [[255; 0]%Z; [0; 255]%Z] (Some [(0, 0, 1, 0)])
                          demo_ppm = Ok res
    /\ findNonZero [[255; 0]%Z; [0; 255]%Z] = Some pixels
    /\ length res = length pixels.
Proof.
  apply (getWhitePoint3DCoords_returns [[255; 0]%Z; [0; 255]%Z]
                                       (0, 0, 1, 0) demo_ppm 0 0).
  - vm_compute. discriminate.
  - intros [|[|[|x]]] [|[|[|y]]] H;
      try (exfalso; apply H; reflexivity);
      intros D; vm_compute in D; discriminate D.
Defined.

(** ** Rasterisation *)

Lemma list_set_length {A} (l : list A) :
  forall n v, length (list_set l n v) = length l.
Proof.
  induction l as [|a l IH]; intros [|n] v; simpl; auto.
Qed.

Lemma list_set_shape (img : image) :
  forall r row row',
    nth_error img r = Some row -> length row' = length row ->
    shape (list_set img r row') = shape img.
Proof.
  unfold shape.
  induction img as [|a img IH]; intros [|r] row row' H Hl; simpl in *;
    try discriminate.
  - inversion H; subst. rewrite Hl. reflexivity.
  - f_equal. eapply IH; eassumption.
Qed.

Lemma set_pixel_shape (img img' : image) (r c : nat) (v : Z) :
  set_pixel img r c v = Ok img' -> shape img' = shape img.
Proof.
  unfold set_pixel. destruct (nth_error img r) as [row|] eqn:E; [|discriminate].
  destruct (Nat.ltb c (length row)); [|discriminate].
  intros H. inversion H. eapply list_set_shape; [exact E|].
  apply list_set_length.
Qed.

Lemma rasterize_shape (pts : list (nat * nat)) :
  forall img img', rasterize pts img = Ok img' -> shape img' = shape img.
Proof.
  induction pts as [|[x y] pts IH]; intros img img' H; simpl in H.
  - inversion H. reflexivity.
  - apply rbind_ok in H. destruct H as (img1 & H1 & H2).
    rewrite (IH _ _ H2). eapply set_pixel_shape. exact H1.
Qed.

Lemma zeros_like_shape (src : image) : shape (zeros_like src) = shape src.
Proof.
  unfold shape, zeros_like. rewrite map_map.
  apply map_ext. intros row. apply length_map.
Qed.

Lemma in_image_shape (img img' : image) (pt : nat * nat) :
  shape img' = shape img -> in_image img pt -> in_image img' pt.
Proof.
  unfold in_image, shape. intros Hs (row & Hrow & Hlt).
  assert (E : nth_error (map (@length Z) img) (snd pt) = Some (length row))
    by (rewrite nth_error_map, Hrow; reflexivity).
  rewrite <- Hs, nth_error_map in E.
  destruct (nth_error img' (snd pt)) as [row'|]; [|discriminate].
  exists row'. split; [reflexivity|]. simpl in E. inversion E. lia.
Qed.

Lemma set_pixel_in_image (img : image) (r c : nat) (v : Z) :
  in_image img (c, r) -> exists img', set_pixel img r c v = Ok img'.
Proof.
  unfold in_image, set_pixel; simpl. intros (row & Hrow & Hlt).
  rewrite Hrow. apply Nat.ltb_lt in Hlt. rewrite Hlt. eexists. reflexivity.
Qed.

Lemma rasterize_in_image (pts : list (nat * nat)) :
  forall img,
    (forall pt, In pt pts -> in_image img pt) ->
    exists img', rasterize pts img = Ok img'.
Proof.
  induction pts as [|[x y] pts IH]; intros img Hin; simpl.
  - eexists. reflexivity.
  - destruct (set_pixel_in_image img y x 255%Z) as (img1 & H1);
      [apply Hin; left; reflexivity|].
    rewrite H1. simpl. apply IH. intros pt Hpt.
    eapply in_image_shape; [eapply set_pixel_shape; exact H1|].
    apply Hin. right. exact Hpt.
Qed.

Lemma set_pixel_at (img img' : image) (r c : nat) (v : Z) :
  set_pixel img r c v = Ok img' -> pixel img' r c = v.
Proof.
  unfold set_pixel. destruct (nth_error img r) as [row|] eqn:Hrow; [|discriminate].
  destruct (Nat.ltb c (length row)) eqn:Hc; [|discriminate].
  intros E. inversion E; subst img'. unfold pixel.
  rewrite list_set_nth_eq
    by (apply nth_error_Some; rewrite Hrow; discriminate).
  apply list_set_nth_eq. apply Nat.ltb_lt. exact Hc.
Qed.

Lemma rasterize_values (pts : list (nat * nat)) :
  forall img img' r c,
    rasterize pts img = Ok img' ->
    (In (c, r) pts -> pixel img' r c = 255%Z)
    /\ (~ In (c, r) pts -> pixel img' r c = pixel img r c).
Proof.
  intros img img' r c H. split; [|apply rasterize_elsewhere; exact H].
  revert img img' H.
  induction pts as [|[x y] pts IH]; intros img img' H Hin; simpl in *.
  - contradiction.
  - apply rbind_ok in H. destruct H as (img1 & H1 & H2).
    destruct (in_dec (fun a b : nat * nat =>
                        ltac:(decide equality; apply Nat.eq_dec)
                        : {a = b} + {a <> b})
                     (c, r) pts) as [Hpts|Hnot].
    + eapply IH; eassumption.
    + rewrite (rasterize_elsewhere _ _ _ H2 _ _ Hnot).
      destruct Hin as [E|Hin]; [|contradiction].
      inversion E; subst x y. eapply set_pixel_at. exact H1.
Qed.

(** ** The splitter *)

Section SplitterFacts.

Variable rng : Type.
Variable fit : forall X, RANSACRegressor X -> list X -> list Q ->
                         M rng (Fitted X).

Lemma calculateLineCoefs_ok (points : list (Q * Q))
      (v : option (model_validator Q)) (st st' : rng)
      (slope intercept : Q) (mask : list bool) :
  calculateLineCoefs rng fit points v st = (Ok (slope, intercept, mask), st') ->
  exists r,
    fit Q (line_regressor v) (map fst points) (map snd points) st = (Ok r, st')
    /\ slope = coef_ (estimator_ r)
    /\ intercept = intercept_ (estimator_ r)
    /\ mask = inlier_mask_ r.
Proof.
  unfold calculateLineCoefs. intros H.
  apply bind_ok in H. destruct H as (r & s1 & Hfit & H).
  apply ret_ok in H. destruct H as [E ->]. inversion E; subst.
  exists r. repeat split. exact Hfit.
Qed.

Lemma split_fits_inv (src : image) (st st' : rng) (f : two_fits) :
  split_fits rng fit src st = (Ok f, st') ->
  exists pts mask1 mask2,
    findNonZero src = Some pts
    /\ rasterize (select mask1 pts) (zeros_like src) = Ok (first_set f)
    /\ rasterize (select mask2 (select (map negb mask1) pts)) (zeros_like src)
       = Ok (second_set f).
Proof.
  unfold split_fits. intros H.
  apply bind_lift_ok in H. destruct H as (fpts & _ & H).
  apply bind_ok in H. destruct H as ([[slope1 c1] inl1] & s1 & _ & H).
  apply bind_lift_ok in H. destruct H as (first_pts & Hrun1 & H).
  apply bind_lift_ok in H. destruct H as (set1 & Hrun2 & H).
  apply bind_lift_ok in H. destruct H as (points_top & Hrun3 & H).
  apply bind_ok in H. destruct H as ([[slope2 c2] inl2] & s2 & _ & H).
  apply bind_lift_ok in H. destruct H as (second_pts & Hrun5 & H).
  apply bind_lift_ok in H. destruct H as (set2 & Hrun6 & H).
  apply ret_ok in H. destruct H as [-> _]. simpl.
  apply mask_index_ok in Hrun1. destruct Hrun1 as (pts & Hpts & ->).
  apply mask_index_ok in Hrun3. destruct Hrun3 as (pts' & Hpts' & ->).
  apply mask_index_ok in Hrun5. destruct Hrun5 as (pts2 & Hpts2 & ->).
  rewrite Hpts in Hpts'. inversion Hpts'; subst pts'.
  inversion Hpts2; subst pts2.
  exists pts, inl1, inl2. repeat split; assumption.
Qed.

Lemma split_sets_of (src : image) (st st' : rng) (bottom top : image) :
  splitTopBottomPoints rng fit src st = (Ok (bottom, top), st') ->
  exists f,
    split_fits rng fit src st = (Ok f, st')
    /\ ((bottom = first_set f /\ top = second_set f)
        \/ (bottom = second_set f /\ top = first_set f)).
Proof.
  unfold splitTopBottomPoints. intros H.
  apply bind_ok in H. destruct H as (f & s1 & Hf & H).
  apply ret_ok in H. destruct H as [E ->].
  exists f. split; [exact Hf|].
  unfold order_sets in E.
  destruct (Qlt_bool (intercept_first f) (intercept_second f));
    inversion E; auto.
Qed.

(** X10.  On a mask without a non-zero pixel [splitTopBottomPoints] raises
    [ValueError] before any fit: the generator state is untouched. *)
Theorem splitTopBottomPoints_empty_mask (src : image) (st : rng) :
  (forall r c, pixel src r c = 0%Z) ->
  splitTopBottomPoints rng fit src st = (Raise ValueError, st).
Proof.
  intros Hz. apply findNonZero_None in Hz.
  unfold splitTopBottomPoints, split_fits. rewrite Hz. reflexivity.
Qed.

(** X11.  Every pixel that is non-zero in a mask returned by
    [splitTopBottomPoints] is non-zero in the source mask. *)
Theorem splitTopBottomPoints_within_source (src : image) (st st' : rng)
        (bottom top : image) :
  splitTopBottomPoints rng fit src st = (Ok (bottom, top), st') ->
  forall r c,
    pixel bottom r c <> 0%Z \/ pixel top r c <> 0%Z -> pixel src r c <> 0%Z.
Proof.
  intros H r c Hlit. apply split_sets_of in H. destruct H as (f & Hf & Hbt).
  apply split_fits_inv in Hf.
  destruct Hf as (pts & mask1 & mask2 & Hpts & R1 & R2).
  assert (H1 : pixel (first_set f) r c <> 0%Z -> pixel src r c <> 0%Z).
  { intros L. apply (rasterize_zeros_lit _ _ _ R1) in L.
    apply select_In in L. apply (findNonZero_In _ _ c r Hpts). exact L. }
  assert (H2 : pixel (second_set f) r c <> 0%Z -> pixel src r c <> 0%Z).
  { intros L. apply (rasterize_zeros_lit _ _ _ R2) in L.
    apply select_In in L. apply select_In in L.
    apply (findNonZero_In _ _ c r Hpts). exact L. }
  destruct Hbt as [[-> ->]|[-> ->]]; destruct Hlit; auto.
Qed.

Lemma rasterize_zeros_binary (src img : image) (pts : list (nat * nat)) :
  rasterize pts (zeros_like src) = Ok img ->
  shape img = shape src /\ binary_mask img.
Proof.
  intros H. split.
  - rewrite (rasterize_shape _ _ _ H). apply zeros_like_shape.
  - intros r c.
    destruct (rasterize_values pts _ _ r c H) as [Hin Hnot].
    destruct (in_dec (fun a b : nat * nat =>
                        ltac:(decide equality; apply Nat.eq_dec)
                        : {a = b} + {a <> b})
                     (c, r) pts) as [Hpts|Hn].
    + right. apply Hin. exact Hpts.
    + left. rewrite (Hnot Hn). apply zeros_like_pixel.
Qed.

(** X12.  The masks returned by [splitTopBottomPoints] have the shape of
    the source mask and hold only 0 and 255. *)
Theorem splitTopBottomPoints_masks (src : image) (st st' : rng)
        (bottom top : image) :
  splitTopBottomPoints rng fit src st = (Ok (bottom, top), st') ->
  shape bottom = shape src /\ shape top = shape src
  /\ binary_mask bottom /\ binary_mask top.
Proof.
  intros H. apply split_sets_of in H. destruct H as (f & Hf & Hbt).
  apply split_fits_inv in Hf.
  destruct Hf as (pts & mask1 & mask2 & Hpts & R1 & R2).
  destruct (rasterize_zeros_binary _ _ _ R1) as [S1 B1].
  destruct (rasterize_zeros_binary _ _ _ R2) as [S2 B2].
  destruct Hbt as [[-> ->]|[-> ->]]; repeat split; assumption.
Qed.

Lemma rasterize_source_points (src : image) (pts sub : list (nat * nat)) :
  findNonZero src = Some pts ->
  (forall pt, In pt sub -> In pt pts) ->
  exists img, rasterize sub (zeros_like src) = Ok img.
Proof.
  intros Hpts Hsub. apply rasterize_in_image.
  intros [x y] Hin. apply Hsub in Hin.
  apply (findNonZero_In _ _ x y Hpts) in Hin.
  apply pixel_nonzero_in_image in Hin.
  eapply in_image_shape; [apply zeros_like_shape|exact Hin].
Qed.

(** X13.  When the source mask has a non-zero pixel, both fits return, and
    each inlier mask has one entry per fitted point, [splitTopBottomPoints]
    returns: writing the inliers into the output masks never raises. *)
Theorem splitTopBottomPoints_returns (src : image) (pts : list (nat * nat))
        (st st1 st2 : rng) (r1 r2 : Fitted Q) :
  findNonZero src = Some pts ->
  fit Q (line_regressor None)
      (map fst (map to_float pts)) (map snd (map to_float pts)) st
  = (Ok r1, st1) ->
  length (inlier_mask_ r1) = length pts ->
  let rest := select (map negb (inlier_mask_ r1)) pts in
  fit Q (line_regressor
           (Some (validateDataLine (intercept_ (estimator_ r1)))))
      (map fst (map to_float rest)) (map snd (map to_float rest)) st1
  = (Ok r2, st2) ->
  length (inlier_mask_ r2) = length rest ->
  exists bottom top,
    splitTopBottomPoints rng fit src st = (Ok (bottom, top), st2).
Proof.
  intros Hpts F1 L1 rest F2 L2.
  destruct (rasterize_source_points src pts (select (inlier_mask_ r1) pts) Hpts)
    as (set1 & R1); [intros pt; apply select_In|].
  destruct (rasterize_source_points src pts (select (inlier_mask_ r2) rest) Hpts)
    as (set2 & R2).
  { intros pt Hin. apply select_In in Hin. apply select_In in Hin. exact Hin. }
  assert (Hf : split_fits rng fit src st
               = (Ok {| intercept_first := intercept_ (estimator_ r1);
                        first_set := set1;
                        intercept_second := intercept_ (estimator_ r2);
                        second_set := set2 |}, st2)).
  { unfold split_fits, calculateLineCoefs. rewrite Hpts.
    unfold bind at 1. unfold lift at 1. unfold reshape_points.
    unfold bind at 1. unfold bind at 1.
    change (fit Q _ (map fst (map to_float pts)) (map snd (map to_float pts)) st)
      with (fit Q (line_regressor None) (map fst (map to_float pts))
                (map snd (map to_float pts)) st).
    rewrite F1. unfold ret at 1.
    unfold bind at 1. unfold lift at 1. unfold mask_index at 1.
    apply Nat.eqb_eq in L1. rewrite L1.
    unfold bind at 1. unfold lift at 1. rewrite R1.
    unfold bind at 1. unfold lift at 1. unfold mask_index at 1.
    rewrite length_map, L1.
    unfold bind at 1. unfold bind at 1.
    fold rest.
    change (fit Q _ (map fst (map to_float rest))
                (map snd (map to_float rest)) st1)
      with (fit Q (line_regressor
                     (Some (validateDataLine (intercept_ (estimator_ r1)))))
                (map fst (map to_float rest)) (map snd (map to_float rest))
                st1).
    rewrite F2. unfold ret at 1.
    unfold bind at 1. unfold lift at 1. unfold mask_index.
    apply Nat.eqb_eq in L2. rewrite L2.
    unfold bind at 1. unfold lift at 1. rewrite R2.
    reflexivity. }
  unfold splitTopBottomPoints, bind. rewrite Hf.
  destruct (order_sets _) as [bottom top] eqn:E.
  exists bottom, top. unfold ret. reflexivity.
Qed.

End SplitterFacts.

Lemma splitTopBottomPoints_empty_mask_witness :
  splitTopBottomPoints tape (RANSAC_fit tape_sample) [[0; 0]%Z; [0; 0]%Z]
                       [[0; 1]%nat]
  = (Raise ValueError, [[0; 1]%nat]).
Proof.
  apply (splitTopBottomPoints_empty_mask tape (RANSAC_fit tape_sample)
                                         [[0; 0]%Z; [0; 0]%Z]).
  intros [|[|[|r]]] [|[|[|c]]]; reflexivity.
Defined.

Lemma splitTopBottomPoints_within_source_witness :
  exists bottom top st',
    splitTopBottomPoints tape (RANSAC_fit tape_sample) two_segments
                         [[0; 1]%nat]
    = (Ok (bottom, top), st')
    /\ forall r c,
      pixel bottom r c <> 0%Z \/ pixel top r c <> 0%Z ->
      pixel two_segments r c <> 0%Z.
Proof.
  eexists _, _, _.
  split; [vm_compute; reflexivity|].
  apply (splitTopBottomPoints_within_source tape (RANSAC_fit tape_sample)
                                            two_segments [[0; 1]%nat] []).
  vm_compute. reflexivity.
Defined.

Lemma splitTopBottomPoints_masks_witness :
  exists bottom top st',
    splitTopBottomPoints tape (RANSAC_fit tape_sample) two_segments
                         [[0; 1]%nat]
    = (Ok (bottom, top), st')
    /\ shape bottom = shape two_segments /\ shape top = shape two_segments
    /\ binary_mask bottom /\ binary_mask top.
Proof.
  eexists _, _, _.
  split; [vm_compute; reflexivity|].
  apply (splitTopBottomPoints_masks tape (RANSAC_fit tape_sample)
                                    two_segments [[0; 1]%nat] []).
  vm_compute. reflexivity.
Defined.

Lemma splitTopBottomPoints_returns_witness :
  exists bottom top,
    splitTopBottomPoints tape (RANSAC_fit tape_sample) two_segments
                         [[0; 1]%nat]
    = (Ok (bottom, top), []).
Proof.
  eapply (splitTopBottomPoints_returns tape (RANSAC_fit tape_sample)
                                       two_segments _ [[0; 1]%nat] [] []).
  - vm_compute. reflexivity.
  - vm_compute. reflexivity.
  - vm_compute. reflexivity.
  - vm_compute. reflexivity.
  - vm_compute. reflexivity.
Defined.

(** ** Plane fit and back-projection together *)

(** X14.  For a non-singular stacked system, a point back-projected under
    the constraint returned by [calculatePlaneCoefs] lies on the fitted
    plane [z = A x + B y + D]. *)
Theorem backproject_on_fitted_plane
        (rng : Type)
        (fit : forall X, RANSACRegressor X -> list X -> list Q ->
                         M rng (Fitted X))
        (points : list vec3) (st st' : rng) (c : constraint)
        (i j : Q) (ppm : mat34) (x y z : Q) :
  calculatePlaneCoefs rng fit points st = (Ok c, st') ->
  ~ system_det i j ppm c == 0 ->
  get_xyz_coords i j ppm (Some [c]) = Ok (x, y, z) ->
  exists reg,
    fit _ plane_regressor
        (map (fun p : vec3 => let '(x, y, _) := p in (x, y)) points)
        (map (fun p : vec3 => let '(_, _, z) := p in z) points) st
    = (Ok reg, st')
    /\ z == fst (coef_ (estimator_ reg)) * x
            + snd (coef_ (estimator_ reg)) * y
            + intercept_ (estimator_ reg).
Proof.
  unfold calculatePlaneCoefs. intros H N Hp.
  apply bind_ok in H. destruct H as (reg & s1 & Hfit & H).
  apply ret_ok in H. destruct H as [-> ->].
  exists reg. split; [exact Hfit|].
  destruct (get_xyz_coords_regular_inv _ _ _ _ _ N Hp) as [_ Hh].
  unfold constraint_holds, dot3, init4, last4 in Hh.
  setoid_replace z with
      (fst (coef_ (estimator_ reg)) * x + snd (coef_ (estimator_ reg)) * y
       - (fst (coef_ (estimator_ reg)) * x + snd (coef_ (estimator_ reg)) * y
          + - (1) * z)) by ring.
  rewrite Hh. ring.
Qed.

Lemma backproject_on_fitted_plane_witness :
  exists c st' x y z,
    calculatePlaneCoefs tape (RANSAC_fit tape_sample) plane_cloud []
    = (Ok c, st')
    /\ ~ system_det 60 70 demo_ppm c == 0
    /\ get_xyz_coords 60 70 demo_ppm (Some [c]) = Ok (x, y, z)
    /\ exists reg,
      RANSAC_fit tape_sample _ plane_regressor
                 (map (fun p : vec3 => let '(x, y, _) := p in (x, y))
                      plane_cloud)
                 (map (fun p : vec3 => let '(_, _, z) := p in z) plane_cloud)
                 []
      = (Ok reg, st')
      /\ z == fst (coef_ (estimator_ reg)) * x
              + snd (coef_ (estimator_ reg)) * y
              + intercept_ (estimator_ reg).
Proof.
  eexists _, _, _, _, _.
  split; [vm_compute; reflexivity|].
  split; [intros D; vm_compute in D; discriminate D|].
  split; [vm_compute; reflexivity|].
  eapply (backproject_on_fitted_plane tape (RANSAC_fit tape_sample)
                                      plane_cloud [] [] _ 60 70 demo_ppm).
  - vm_compute. reflexivity.
  - intros D. vm_compute in D. discriminate D.
  - vm_compute. reflexivity.
Defined.

(** ** Validity predicates *)

Lemma validateData_three (a : list (Q * Q)) (z0 z1 z2 : Q) :
  validateData a [z0; z1; z2]
  = Ok (negb (Qeq_bool z0 z1 && Qeq_bool z1 z2)).
Proof.
  unfold validateData. destruct (Qeq_bool z0 z1); reflexivity.
Qed.

Lemma Qeq_bool_sym (x y : Q) : Qeq_bool x y = Qeq_bool y x.
Proof.
  destruct (Qeq_bool x y) eqn:E1, (Qeq_bool y x) eqn:E2; try reflexivity.
  - apply Qeq_bool_iff in E1. apply Qeq_bool_false_neq in E2.
    exfalso. apply E2. symmetry. exact E1.
  - apply Qeq_bool_iff in E2. apply Qeq_bool_false_neq in E1.
    exfalso. apply E1. symmetry. exact E2.
Qed.

Lemma Qeq_bool_trans (x y z : Q) :
  Qeq_bool x y = true -> Qeq_bool y z = true -> Qeq_bool x z = true.
Proof.
  intros H1 H2. apply Qeq_bool_iff in H1. apply Qeq_bool_iff in H2.
  apply Qeq_bool_iff. rewrite H1. exact H2.
Qed.

Lemma all_equal_swap01 (z0 z1 z2 : Q) :
  Qeq_bool z0 z1 && Qeq_bool z1 z2 = Qeq_bool z1 z0 && Qeq_bool z0 z2.
Proof.
  rewrite (Qeq_bool_sym z1 z0).
  destruct (Qeq_bool z0 z1) eqn:E01; simpl; [|reflexivity].
  destruct (Qeq_bool z1 z2) eqn:E12, (Qeq_bool z0 z2) eqn:E02;
    try reflexivity.
  - rewrite (Qeq_bool_trans z0 z1 z2 E01 E12) in E02. discriminate.
  - rewrite Qeq_bool_sym in E01.
    rewrite (Qeq_bool_trans z1 z0 z2 E01 E02) in E12. discriminate.
Qed.

Lemma all_equal_swap12 (z0 z1 z2 : Q) :
  Qeq_bool z0 z1 && Qeq_bool z1 z2 = Qeq_bool z0 z2 && Qeq_bool z2 z1.
Proof.
  rewrite (Qeq_bool_sym z2 z1).
  destruct (Qeq_bool z1 z2) eqn:E12.
  - rewrite !andb_true_r.
    destruct (Qeq_bool z0 z1) eqn:E01, (Qeq_bool z0 z2) eqn:E02;
      try reflexivity.
    + rewrite (Qeq_bool_trans z0 z1 z2 E01 E12) in E02. discriminate.
    + rewrite Qeq_bool_sym in E12.
      rewrite (Qeq_bool_trans z0 z2 z1 E02 E12) in E01. discriminate.
  - rewrite !andb_false_r. reflexivity.
Qed.

(** X15.  On a sample of three points the verdict of [validateData] does
    not depend on the order of the three z values, nor on the x and y
    coordinates it is passed. *)
Theorem validateData_order_independent
        (a a' : list (Q * Q)) (z0 z1 z2 : Q) :
  validateData a [z0; z1; z2] = validateData a' [z1; z0; z2]
  /\ validateData a [z0; z1; z2] = validateData a' [z0; z2; z1]
  /\ validateData a [z0; z1; z2] = validateData a' [z2; z0; z1].
Proof.
  rewrite !validateData_three. repeat split.
  - rewrite all_equal_swap01. reflexivity.
  - rewrite all_equal_swap12. reflexivity.
  - rewrite all_equal_swap12, all_equal_swap01. reflexivity.
Qed.

(** X16.  [validateData] reads at most the first three z values: with
    fewer than two it raises [IndexError]; when the first two differ it
    accepts without reading a third; when they are equal it raises
    [IndexError] if there is no third and otherwise decides on the third. *)
Theorem validateData_reads_three (a : list (Q * Q)) :
  validateData a [] = Raise IndexError
  /\ (forall z0, validateData a [z0] = Raise IndexError)
  /\ (forall z0 z1 rest,
         ~ z0 == z1 -> validateData a (z0 :: z1 :: rest) = Ok true)
  /\ (forall z0 z1, z0 == z1 -> validateData a [z0; z1] = Raise IndexError)
  /\ (forall z0 z1 z2 rest,
         validateData a (z0 :: z1 :: z2 :: rest)
         = validateData a [z0; z1; z2]).
Proof.
  split; [reflexivity|]. split; [reflexivity|].
  split; [|split].
  - intros z0 z1 rest H. unfold validateData.
    rewrite (Qeq_bool_neq_false _ _ H). reflexivity.
  - intros z0 z1 H. unfold validateData.
    apply Qeq_bool_iff in H. rewrite H. reflexivity.
  - reflexivity.
Qed.

(** X17.  [validateDataLine] never raises and ignores the sample; it is
    symmetric in the reference intercept and the model's intercept, and it
    rejects a model whose intercept equals the reference. *)
Theorem validateDataLine_symmetric (c1 c2 slope1 slope2 : Q)
        (a a' b b' : list Q) :
  validateDataLine c1 {| coef_ := slope2; intercept_ := c2 |} a b
  = validateDataLine c2 {| coef_ := slope1; intercept_ := c1 |} a' b'
  /\ (c1 == c2 ->
      validateDataLine c1 {| coef_ := slope2; intercept_ := c2 |} a b
      = Ok false).
Proof.
  unfold validateDataLine; cbn [intercept_]. split.
  - rewrite (Qabs_Qminus c1 c2). reflexivity.
  - intros E. f_equal. unfold Qlt_bool.
    apply negb_false_iff. apply Qle_bool_iff.
    assert (Z0 : c1 - c2 == 0) by (rewrite E; ring).
    setoid_rewrite Z0. discriminate.
Qed.

(** ** Chessboard object points *)

Lemma nth_error_flat_map_rows {A B} (f : A -> list B) (w : nat) :
  (forall x, length (f x) = w) ->
  forall l b a x,
    nth_error l b = Some x -> (a < w)%nat ->
    nth_error (flat_map f l) (b * w + a) = nth_error (f x) a.
Proof.
  intros Hw. induction l as [|y l IH]; intros b a x Hb Ha.
  - destruct b; discriminate Hb.
  - destruct b as [|b]; simpl in *.
    + inversion Hb; subst y. apply nth_error_app1. rewrite Hw. exact Ha.
    + rewrite nth_error_app2 by (rewrite Hw; lia).
      rewrite Hw. replace (w + b * w + a - w)%nat with (b * w + a)%nat by lia.
      apply IH; assumption.
Qed.

Lemma mgrid_pairs_nth (w h a b : nat) :
  (a < w)%nat -> (b < h)%nat ->
  nth_error (mgrid_pairs w h) (b * w + a) = Some (a, b).
Proof.
  intros Ha Hb. unfold mgrid_pairs.
  rewrite (nth_error_flat_map_rows _ w) with (x := b).
  - rewrite nth_error_map, nth_error_seq.
    apply Nat.ltb_lt in Ha. rewrite Ha. reflexivity.
  - intros x. rewrite length_map, length_seq. reflexivity.
  - rewrite nth_error_seq. apply Nat.ltb_lt in Hb. rewrite Hb. reflexivity.
  - exact Ha.
Qed.

Lemma mgrid_pairs_length (w h : nat) :
  length (mgrid_pairs w h) = (w * h)%nat.
Proof.
  unfold mgrid_pairs.
  assert (H : forall s,
             length (flat_map (fun b => map (fun a => (a, b)) (seq 0 w))
                              (seq s h)) = (w * h)%nat).
  { induction h as [|h IH]; intros s; simpl.
    - lia.
    - rewrite length_app, length_map, length_seq, IH. lia. }
  apply H.
Qed.

(** X18.  The object points of a chessboard view are [w * h] points of the
    plane [z = 0]; the point at index [b * w + a], for [a < w] and
    [b < h], is [(b * size, a * size, 0)]. *)
Theorem sample_object_points_grid (w h : nat) (size : Q) :
  length (sample_object_points w h size) = (w * h)%nat
  /\ Forall (fun p : vec3 => let '(_, _, z) := p in z = 0)
            (sample_object_points w h size)
  /\ forall a b,
      (a < w)%nat -> (b < h)%nat ->
      nth_error (sample_object_points w h size) (b * w + a)
      = Some (inject_Z (Z.of_nat b) * size, inject_Z (Z.of_nat a) * size, 0).
Proof.
  unfold sample_object_points. split; [|split].
  - rewrite !length_map. apply mgrid_pairs_length.
  - rewrite !map_map. apply Forall_forall. intros p Hin.
    apply in_map_iff in Hin. destruct Hin as (ab & <- & _). reflexivity.
  - intros a b Ha Hb. rewrite !map_map, nth_error_map.
    rewrite (mgrid_pairs_nth w h a b Ha Hb). reflexivity.
Qed.

Lemma sample_object_points_grid_witness :
  nth_error (sample_object_points 7 6 (5 # 2)) (2 * 7 + 3)
  = Some (inject_Z (Z.of_nat 2) * (5 # 2), inject_Z (Z.of_nat 3) * (5 # 2), 0).
Proof.
  apply (sample_object_points_grid 7 6 (5 # 2)); lia.
Defined.

(** ** Chessboard extraction *)

Section CalibrationFacts.

Variables path frame gray corners : Type.
Variable imread : path -> frame.
Variable cvtColor : frame -> gray.
Variable findChessboardCorners : gray -> nat * nat -> bool * corners.
Variable cornerSubPix : gray -> corners -> corners.
Variable gray_shape : gray -> nat * nat.

Let step (w h : nat) (sample : list vec3) :=
  extraction_step path frame gray corners imread cvtColor
                  findChessboardCorners cornerSubPix w h sample.

Lemma extraction_step_aligned (w h : nat) (sample : list vec3)
      (acc : extraction gray corners) (fname : path) :
  length (object_points _ _ acc) = length (image_points _ _ acc) ->
  Forall (eq sample) (object_points _ _ acc) ->
  let next := step w h sample acc fname in
  length (object_points _ _ next) = length (image_points _ _ next)
  /\ Forall (eq sample) (object_points _ _ next)
  /\ (length (object_points _ _ next) <= S (length (object_points _ _ acc)))%nat
  /\ grayscale_image _ _ next = Some (cvtColor (imread fname)).
Proof.
  intros Hlen Hall. unfold step, extraction_step.
  destruct (findChessboardCorners (cvtColor (imread fname)) (w, h))
    as [[|] found]; simpl.
  - rewrite !length_app, Hlen. simpl. repeat split; try lia.
    apply Forall_app. split; [exact Hall|]. constructor; [reflexivity|constructor].
  - repeat split; try assumption. lia.
Qed.

Lemma extraction_fold (w h : nat) (sample : list vec3) (images : list path) :
  forall acc,
    length (object_points _ _ acc) = length (image_points _ _ acc) ->
    Forall (eq sample) (object_points _ _ acc) ->
    let final := fold_left (step w h sample) images acc in
    length (object_points _ _ final) = length (image_points _ _ final)
    /\ Forall (eq sample) (object_points _ _ final)
    /\ (length (object_points _ _ final)
        <= length (object_points _ _ acc) + length images)%nat
    /\ grayscale_image _ _ final
       = match rev images with
         | [] => grayscale_image _ _ acc
         | fname :: _ => Some (cvtColor (imread fname))
         end.
Proof.
  induction images as [|fname images IH]; intros acc Hlen Hall; simpl.
  - repeat split; try assumption. lia.
  - destruct (extraction_step_aligned w h sample acc fname Hlen Hall)
      as (Hlen' & Hall' & Hle & Hg).
    destruct (IH (step w h sample acc fname) Hlen' Hall')
      as (H1 & H2 & H3 & H4).
    repeat split; try assumption; [lia|].
    rewrite H4. destruct (rev images) as [|l ls] eqn:E; simpl.
    + exact Hg.
    + reflexivity.
Qed.

(** X19.  [chessboardPointExtraction] raises [UnboundLocalError] exactly
    when no calibration image was found: [grayscale_image] is then unbound
    at the [return]. *)
Theorem chessboardPointExtraction_no_images (w h : nat) (size : Q)
        (images : list path) :
  chessboardPointExtraction path frame gray corners imread cvtColor
                            findChessboardCorners cornerSubPix gray_shape
                            w h size images
  = Fail UnboundLocalError
  <-> images = [].
Proof.
  unfold chessboardPointExtraction.
  pose proof (extraction_fold w h (sample_object_points w h size) images
                              {| object_points := [];
                                 image_points := [];
                                 grayscale_image := None |}
                              eq_refl (Forall_nil _)) as (_ & _ & _ & Hg).
  fold (step w h (sample_object_points w h size)).
  simpl in Hg. rewrite Hg. split.
  - destruct (rev images) as [|fname l] eqn:E; [|discriminate].
    intros _. apply (f_equal (@rev path)) in E.
    rewrite rev_involutive in E. exact E.
  - intros ->. reflexivity.
Qed.

(** X20.  When [chessboardPointExtraction] returns, the object-point and
    image-point lists have the same length, at most the number of images;
    every entry of the object-point list is the same grid of sample points;
    and the size returned is the reversed shape of the last image read,
    whether or not a chessboard was found in it. *)
Theorem chessboardPointExtraction_aligned (w h : nat) (size : Q)
        (images : list path) (objs : list (list vec3)) (imgs : list corners)
        (image_size : nat * nat) :
  chessboardPointExtraction path frame gray corners imread cvtColor
                            findChessboardCorners cornerSubPix gray_shape
                            w h size images
  = Done (objs, imgs, image_size) ->
  length objs = length imgs
  /\ (length objs <= length images)%nat
  /\ Forall (eq (sample_object_points w h size)) objs
  /\ exists earlier fname,
      images = earlier ++ [fname]
      /\ image_size = (snd (gray_shape (cvtColor (imread fname))),
                       fst (gray_shape (cvtColor (imread fname)))).
Proof.
  unfold chessboardPointExtraction.
  pose proof (extraction_fold w h (sample_object_points w h size) images
                              {| object_points := [];
                                 image_points := [];
                                 grayscale_image := None |}
                              eq_refl (Forall_nil _)) as (H1 & H2 & H3 & Hg).
  fold (step w h (sample_object_points w h size)).
  simpl in H1, H2, H3, Hg. rewrite Hg.
  destruct (rev images) as [|fname l] eqn:E; [discriminate|].
  intros H. inversion H; subst objs imgs image_size; clear H.
  repeat split; try assumption.
  exists (rev l), fname. split; [|reflexivity].
  apply (f_equal (@rev path)) in E. rewrite rev_involutive in E.
  exact E.
Qed.

End CalibrationFacts.

(** Files named by numbers, a chessboard found in the even ones, every
    frame 480 rows by 640 columns. *)
Lemma chessboardPointExtraction_aligned_witness :
  exists objs imgs image_size,
    chessboardPointExtraction nat nat nat nat (fun f => f) (fun f => f)
                              (fun g _ => (Nat.even g, g)) (fun _ c => c)
                              (fun _ => (480, 640)%nat)
                              2 2 1 [0; 1; 2; 3]%nat
    = Done (objs, imgs, image_size)
    /\ length objs = length imgs
    /\ (length objs <= length [0; 1; 2; 3]%nat)%nat
    /\ Forall (eq (sample_object_points 2 2 1)) objs
    /\ exists earlier fname,
        [0; 1; 2; 3]%nat = earlier ++ [fname]
        /\ image_size = (snd (480, 640)%nat, fst (480, 640)%nat).
Proof.
  eexists _, _, _.
  split; [vm_compute; reflexivity|].
  apply (chessboardPointExtraction_aligned
           nat nat nat nat (fun f => f) (fun f => f)
           (fun g _ => (Nat.even g, g)) (fun _ c => c)
           (fun _ => (480, 640)%nat) 2 2 1 [0; 1; 2; 3]%nat).
  vm_compute. reflexivity.
Defined.

(** ** Reprojection error *)

Section ReprojectionFacts.

Variables objp imgp rvec tvec : Type.
Variable projectPoints_whole : objp -> list rvec -> list tvec -> imgp.
Variable projectPoints_item : objp -> rvec -> tvec -> imgp.
Variable len : imgp -> nat.
Variable norm : imgp -> imgp -> Q.

Let view (objpoints : list objp) (imgpoints : list imgp)
    (rvecs : list rvec) (tvecs : list tvec) :=
  view_error objp imgp rvec tvec projectPoints_whole projectPoints_item
             len norm objpoints imgpoints rvecs tvecs.

Let total (objpoints : list objp) (imgpoints : list imgp)
    (rvecs : list rvec) (tvecs : list tvec) :=
  sum_errors objp imgp rvec tvec projectPoints_whole projectPoints_item
             len norm objpoints imgpoints rvecs tvecs.

Lemma pbind_done {A B} (r : py_result A) (k : A -> py_result B) (b : B) :
  pbind r k = Done b -> exists a, r = Done a /\ k a = Done b.
Proof.
  destruct r as [a|e]; simpl; intros H; [|discriminate].
  exists a. split; [reflexivity|exact H].
Qed.

Lemma index_done {A} (l : list A) (i : nat) (a : A) :
  index l i = Done a -> (i < length l)%nat.
Proof.
  unfold index. destruct (nth_error l i) eqn:E; [|discriminate].
  intros _. apply nth_error_Some. rewrite E. discriminate.
Qed.

Lemma view_error_done (objpoints : list objp) (imgpoints : list imgp)
      (rvecs : list rvec) (tvecs : list tvec) (i : nat) (e : Q) :
  view objpoints imgpoints rvecs tvecs i = Done e ->
  (i < length imgpoints)%nat
  /\ (length rvecs = 3%nat
      \/ ((i < length rvecs)%nat /\ (i < length tvecs)%nat)).
Proof.
  unfold view, view_error. intros H.
  apply pbind_done in H. destruct H as (calculated & Hc & H).
  apply pbind_done in H. destruct H as (observed & Ho & _).
  split; [eapply index_done; exact Ho|].
  destruct (Nat.eqb (length rvecs) 3) eqn:E3.
  - left. apply Nat.eqb_eq. exact E3.
  - right.
    apply pbind_done in Hc. destruct Hc as (o & _ & Hc).
    apply pbind_done in Hc. destruct Hc as (r & Hr & Hc).
    apply pbind_done in Hc. destruct Hc as (t & Ht & _).
    split; eapply index_done; eassumption.
Qed.

Lemma sum_errors_done (objpoints : list objp) (imgpoints : list imgp)
      (rvecs : list rvec) (tvecs : list tvec) (indices : list nat) :
  forall acc e,
    total objpoints imgpoints rvecs tvecs indices acc = Done e ->
    forall i, In i indices ->
              exists x, view objpoints imgpoints rvecs tvecs i = Done x.
Proof.
  unfold total, view.
  induction indices as [|k rest IH]; intros acc e H i Hin; simpl in *.
  - contradiction.
  - apply pbind_done in H. destruct H as (x & Hx & H).
    destruct Hin as [<-|Hin]; [exists x; exact Hx|].
    eapply IH; eassumption.
Qed.

(** X21.  [calculateReprojectionError] raises [ZeroDivisionError] when the
    list of object points is empty, whatever the other arguments. *)
Theorem calculateReprojectionError_empty (imgpoints : list imgp)
        (rvecs : list rvec) (tvecs : list tvec) :
  calculateReprojectionError objp imgp rvec tvec projectPoints_whole
                             projectPoints_item len norm
                             [] imgpoints rvecs tvecs
  = Fail ZeroDivisionError.
Proof. reflexivity. Qed.

(** X22.  When [calculateReprojectionError] returns, there was at least one
    view, the image-point list has an entry for every view, and either
    [rvecs] has exactly three entries (it is then passed whole to
    [cv2.projectPoints]) or [rvecs] and [tvecs] have an entry for every
    view. *)
Theorem calculateReprojectionError_aligned (objpoints : list objp)
        (imgpoints : list imgp) (rvecs : list rvec) (tvecs : list tvec)
        (e : Q) :
  calculateReprojectionError objp imgp rvec tvec projectPoints_whole
                             projectPoints_item len norm
                             objpoints imgpoints rvecs tvecs
  = Done e ->
  objpoints <> []
  /\ (length objpoints <= length imgpoints)%nat
  /\ (length rvecs = 3%nat
      \/ ((length objpoints <= length rvecs)%nat
          /\ (length objpoints <= length tvecs)%nat)).
Proof.
  unfold calculateReprojectionError. intros H.
  apply pbind_done in H. destruct H as (s & Hs & H).
  destruct objpoints as [|o objpoints]; [discriminate H|].
  split; [discriminate|].
  set (n := length (o :: objpoints)) in *.
  assert (Hlast : In (n - 1)%nat (seq 0 n))
    by (apply in_seq; unfold n; simpl; lia).
  destruct (sum_errors_done _ _ _ _ _ _ _ Hs _ Hlast) as (x & Hx).
  apply view_error_done in Hx. destruct Hx as [Hi Hr].
  assert (Hn : (0 < n)%nat) by (unfold n; simpl; lia).
  split; [lia|]. destruct Hr as [H3|[Hr Ht]]; [left; exact H3|right; lia].
Qed.

End ReprojectionFacts.

(** Views, points and poses named by numbers; every projection has four
    points and every norm is 2. *)
Lemma calculateReprojectionError_aligned_witness :
  exists e,
    calculateReprojectionError nat nat nat nat
                               (fun o _ _ => o) (fun o _ _ => o)
                               (fun _ => 4%nat) (fun _ _ => 2)
                               [0; 1]%nat [5; 6]%nat [7; 8]%nat [9; 10]%nat
    = Done e
    /\ [0; 1]%nat <> []
    /\ (length [0; 1]%nat <= length [5; 6]%nat)%nat
    /\ (length [7; 8]%nat = 3%nat
        \/ ((length [0; 1]%nat <= length [7; 8]%nat)%nat
            /\ (length [0; 1]%nat <= length [9; 10]%nat)%nat)).
Proof.
  eexists. split; [vm_compute; reflexivity|].
  eapply (calculateReprojectionError_aligned
           nat nat nat nat (fun o _ _ => o) (fun o _ _ => o)
           (fun _ => 4%nat) (fun _ _ => 2)
           [0; 1]%nat [5; 6]%nat [7; 8]%nat [9; 10]%nat).
  vm_compute. reflexivity.
Defined.
